(** * Personal assistant backend: intent classifier and device action queue

    A shallow embedding of [main.py]: the text normalizer, the rule-ordered
    intent classifier [parse_intent], the enqueue step of [create_interaction]
    and the two device-facing handlers [get_next_action] and
    [complete_action], followed by the properties of the specification.

    Text is a [string] whose characters are read as the code points
    U+0000..U+00FF; [lower_char] and [is_space] follow Python's [str.lower]
    and [str.isspace] on that range. *)

From Stdlib Require Import String Ascii List Bool Arith NArith ZArith Lia.
Import ListNotations.
Open Scope string_scope.

(* ------------------------------------------------------------------ *)
(** ** Results of fallible code *)

Inductive exn : Type :=
| IndexError
| ValueError
| HTTPException (code : nat) (detail : string).

Inductive outcome (A : Type) : Type :=
| Returns (a : A)
| Raises (e : exn).
Arguments Returns {A} a.
Arguments Raises {A} e.

(* ------------------------------------------------------------------ *)
(** ** String primitives used by the classifier *)

Module Str.

Definition code (c : ascii) : N := N_of_ascii c.

(** [str.isspace] on U+0000..U+00FF. *)
Definition is_space (c : ascii) : bool :=
  let n := code c in
  ((9 <=? n) && (n <=? 13) || (28 <=? n) && (n <=? 32)
   || (n =? 133) || (n =? 160))%N.

(** [str.lower] on one character of U+0000..U+00FF. *)
Definition lower_char (c : ascii) : ascii :=
  let n := code c in
  if ((65 <=? n) && (n <=? 90)
      || (192 <=? n) && (n <=? 222) && negb (n =? 215))%N
  then ascii_of_N (n + 32) else c.

Fixpoint lower (s : string) : string :=
  match s with
  | EmptyString => EmptyString
  | String c s' => String (lower_char c) (lower s')
  end.

Fixpoint rev_onto (s acc : string) : string :=
  match s with
  | EmptyString => acc
  | String c s' => rev_onto s' (String c acc)
  end.

Definition rev (s : string) : string := rev_onto s EmptyString.

Fixpoint lstrip (s : string) : string :=
  match s with
  | EmptyString => EmptyString
  | String c s' => if is_space c then lstrip s' else s
  end.

Definition strip (s : string) : string := rev (lstrip (rev (lstrip s))).

Definition is_empty (s : string) : bool :=
  match s with EmptyString => true | _ => false end.

(** [s.split()]: the maximal runs of non-space characters, [w] being the
    run read so far. *)
Fixpoint split_from (w s : string) : list string :=
  match s with
  | EmptyString => if is_empty w then [] else [w]
  | String c s' =>
      if is_space c
      then (if is_empty w then split_from "" s' else w :: split_from "" s')
      else split_from (w ++ String c "") s'
  end.

Definition split (s : string) : list string := split_from "" s.

(** [sep.join(ws)] *)
Fixpoint join (sep : string) (ws : list string) : string :=
  match ws with
  | [] => ""
  | [w] => w
  | w :: ws' => w ++ sep ++ join sep ws'
  end.

Definition startswith (s p : string) : bool := String.prefix p s.

(** [sub in s] *)
Fixpoint contains (sub s : string) : bool :=
  String.prefix sub s
  || match s with
     | EmptyString => false
     | String _ s' => contains sub s'
     end.

(** [s.split(" ", 1)]: cut at the first space, if there is one. *)
Fixpoint split_space_1_from (w s : string) : list string :=
  match s with
  | EmptyString => [w]
  | String c s' =>
      if Ascii.eqb c " " then [w; s']
      else split_space_1_from (w ++ String c "") s'
  end.

Definition split_space_1 (s : string) : list string :=
  split_space_1_from "" s.

Definition is_digit (c : ascii) : bool :=
  let n := code c in ((48 <=? n) && (n <=? 57))%N.

(** the longest run of digits at the head of [s], and what follows it *)
Fixpoint span_digits (s : string) : string * string :=
  match s with
  | EmptyString => ("", "")
  | String c s' =>
      if is_digit c
      then let (ds, r) := span_digits s' in (String c ds, r)
      else ("", s)
  end.

(** [re.search(r"(\d+)%", s)], giving group 1 of the leftmost match. A match
    starts at a digit whose whole run of digits is followed by [%]. *)
Fixpoint search_percent (s : string) : option string :=
  match s with
  | EmptyString => None
  | String c s' =>
      if is_digit c
      then let (ds, r) := span_digits s in
           if startswith r "%" then Some ds else search_percent s'
      else search_percent s'
  end.

(** the number that a string of digits writes *)
Definition int_of_digits (ds : string) : Z :=
  let fix go (acc : Z) (s : string) : Z :=
    match s with
    | EmptyString => acc
    | String c s' => go (10 * acc + (Z.of_N (code c) - 48))%Z s'
    end in
  go 0%Z ds.

(** [sys.get_int_max_str_digits()] *)
Definition MAX_STR_DIGITS : N := 4300.

(** [int(ds)] on a string of digits: a string of more digits than the limit
    is refused with a [ValueError]. *)
Definition int (ds : string) : outcome Z :=
  if (MAX_STR_DIGITS <? N.of_nat (String.length ds))%N
  then Raises ValueError
  else Returns (int_of_digits ds).

End Str.

(* ------------------------------------------------------------------ *)
(** ** Models *)

Inductive IntentType : Type :=
| open_app | toggle_setting | adjust_setting | unknown.

(** [Any]: the JSON scalars that occur as an intent value. *)
Inductive Any : Type :=
| AInt (z : Z)
| AStr (s : string)
| ABool (b : bool).

Record Intent : Type := mkIntent {
  i_type : IntentType;
  i_target : option string;
  i_action : option string;
  i_value : option Any;
  i_raw_text : option string;
}.

Definition set_intent (i : Intent) (ty : IntentType) (target : string)
    (action : option string) (value : option Any) : Intent :=
  {| i_type := ty; i_target := Some target; i_action := action;
     i_value := value; i_raw_text := i_raw_text i |}.

(* ------------------------------------------------------------------ *)
(** ** Alias tables, in declaration order *)

Definition COMMON_APPS : list (string * list string) :=
  [ ("whatsapp", ["whatsapp"; "whats app"]);
    ("instagram", ["instagram"; "insta"]);
    ("youtube", ["youtube"; "yt"]);
    ("twitter", ["twitter"; "x"]);
    ("facebook", ["facebook"; "fb"]);
    ("camera", ["camera"]);
    ("settings", ["settings"]);
    ("chrome", ["chrome"; "browser"]);
    ("gmail", ["gmail"; "mail"]) ].

Definition SETTINGS : list (string * list string) :=
  [ ("wifi", ["wi-fi"; "wifi"]);
    ("bluetooth", ["bluetooth"]);
    ("data", ["mobile data"; "data"; "cellular"]);
    ("flashlight", ["flashlight"; "torch"]);
    ("airplane", ["airplane"; "flight mode"]);
    ("dnd", ["do not disturb"; "dnd"]);
    ("location", ["location"; "gps"]);
    ("hotspot", ["hotspot"; "tethering"]) ].

Definition ADJUSTABLES : list (string * list string) :=
  [ ("volume", ["volume"; "sound"]);
    ("brightness", ["brightness"; "display"]) ].

(* ------------------------------------------------------------------ *)
(** ** The classifier *)

Definition normalize (text : string) : string :=
  Str.join " " (Str.split (Str.strip (Str.lower text))).

(** [any(w in t for w in ws)] *)
Definition any_in (ws : list string) (t : string) : bool :=
  existsb (fun w => Str.contains w t) ws.

(** The [for key, aliases in table.items()] loops: the first key whose row
    satisfies the test, if any. *)
Definition first_key (test : string -> list string -> bool)
    (table : list (string * list string)) : option string :=
  option_map fst (find (fun row => test (fst row) (snd row)) table).

(** [app_name in aliases or key in app_name] *)
Definition app_matches (app_name key : string) (aliases : list string) : bool :=
  existsb (String.eqb app_name) aliases || Str.contains key app_name.

Definition alias_in (t : string) (_ : string) (aliases : list string) : bool :=
  any_in aliases t.

Definition ON_WORDS : list string := ["turn on"; "enable"; "switch on"].
Definition OFF_WORDS : list string := ["turn off"; "disable"; "switch off"].
Definition ADJUST_WORDS : list string :=
  ["increase"; "turn up"; "raise"; "decrease"; "turn down"; "lower"; "set "].
Definition UP_WORDS : list string := ["increase"; "turn up"; "raise"].
Definition DOWN_WORDS : list string := ["decrease"; "turn down"; "lower"].

(** Lines 147-171: the adjust tier and the fallback. *)
Definition adjust_tier (t : string) (intent : Intent) : outcome Intent :=
  if any_in ADJUST_WORDS t then
    let action :=
      if any_in UP_WORDS t then Some "increase"
      else if any_in DOWN_WORDS t then Some "decrease"
      else if Str.startswith t "set " then Some "set"
      else None in
    match first_key (alias_in t) ADJUSTABLES with
    | Some key =>
        match Str.search_percent t with
        | Some ds =>
            match Str.int ds with
            | Returns z =>
                Returns (set_intent intent adjust_setting key action
                           (Some (AInt z)))
            | Raises e => Raises e
            end
        | None => Returns (set_intent intent adjust_setting key action None)
        end
    | None => Returns intent
    end
  else Returns intent.

(** Lines 139-145, then the tiers below. *)
Definition toggle_off_tier (t : string) (intent : Intent) : outcome Intent :=
  if any_in OFF_WORDS t then
    match first_key (alias_in t) SETTINGS with
    | Some key =>
        Returns (set_intent intent toggle_setting key (Some "off")
                   (i_value intent))
    | None => adjust_tier t intent
    end
  else adjust_tier t intent.

(** Lines 131-137, then the tiers below. *)
Definition toggle_on_tier (t : string) (intent : Intent) : outcome Intent :=
  if any_in ON_WORDS t then
    match first_key (alias_in t) SETTINGS with
    | Some key =>
        Returns (set_intent intent toggle_setting key (Some "on")
                   (i_value intent))
    | None => toggle_off_tier t intent
    end
  else toggle_off_tier t intent.

Definition open_prefix (t : string) : bool :=
  Str.startswith t "open " || Str.startswith t "launch ".

Definition parse_intent (text : string) : outcome Intent :=
  let t := normalize text in
  let intent := mkIntent unknown None None None (Some text) in
  if open_prefix t then
    match nth_error (Str.split_space_1 t) 1 with
    | None => Raises IndexError
    | Some app_name =>
        match first_key (app_matches app_name) COMMON_APPS with
        | Some key =>
            Returns (set_intent intent open_app key (Some "open") (i_value intent))
        | None =>
            Returns (set_intent intent open_app app_name (Some "open") (i_value intent))
        end
    end
  else toggle_on_tier t intent.

(* ------------------------------------------------------------------ *)
(** ** Device actions and the document store *)

Inductive Kind : Type := k_open_app | k_toggle | k_adjust.

Inductive Status : Type := pending | reserved | completed | failed.

Definition Status_eqb (a b : Status) : bool :=
  match a, b with
  | pending, pending | reserved, reserved
  | completed, completed | failed, failed => true
  | _, _ => false
  end.

Record DeviceAction : Type := mkDeviceAction {
  da_id : string;
  da_kind : Kind;
  da_target : string;
  da_action : option string;
  da_value : option Any;
  da_status : Status;
  da_device_id : option string;
  da_result : option (list (string * Any));
}.

Inductive Role : Type := user | assistant.

Record Interaction : Type := mkInteraction {
  it_role : Role;
  it_text : string;
  it_intent : option Intent;
}.

(** A stored document of the [deviceaction] collection: the dumped model,
    the store's own [_id] (an ObjectId, written as the string [str] gives)
    and the [updated_at] key that the handlers set. *)
Record Doc : Type := mkDoc {
  doc_oid : string;
  doc_body : DeviceAction;
  doc_updated_at : option Z;
}.

(** Modelled from the spec: the [database] module ([db], [create_document])
    is the storage collaborator of section 6 and is not part of the sources.
    A collection is the list of its documents in the order in which the
    store reads them; [find_one] gives the first document that satisfies the
    filter and [update_one] rewrites the first document that satisfies it and
    counts it. [create_document] files the document under a new [_id] and
    returns that [_id] as a string; the new document is put at the end of
    the list, which is a choice of this model: the store promises no order
    and [get_next_action] asks for none. *)
Record Database : Type := mkDatabase {
  interaction : list (string * Interaction);
  deviceaction : list Doc;
}.

Definition with_deviceaction (db : Database) (c : list Doc) : Database :=
  {| interaction := interaction db; deviceaction := c |}.

Definition find_one (flt : Doc -> bool) (c : list Doc) : option Doc :=
  find flt c.

Fixpoint update_one (flt : Doc -> bool) (upd : Doc -> Doc) (c : list Doc)
  : list Doc * nat :=
  match c with
  | [] => ([], 0)
  | d :: c' =>
      if flt d then (upd d :: c', 1)
      else let (c'', n) := update_one flt upd c' in (d :: c'', n)
  end.

Definition create_interaction_document (db : Database) (oid : string)
    (doc : Interaction) : string * Database :=
  (oid, {| interaction := interaction db ++ [(oid, doc)];
           deviceaction := deviceaction db |}).

Definition create_deviceaction_document (db : Database) (oid : string)
    (doc : DeviceAction) : string * Database :=
  (oid, with_deviceaction db (deviceaction db ++ [mkDoc oid doc None])).

(** [DeviceAction(kind=..., target=..., ...)]: the remaining fields take their
    defaults, [uuid] being what [uuid4()] gives for [id]. *)
Definition new_action (uuid : string) (kind : Kind) (target : string)
    (action : option string) (value : option Any) : DeviceAction :=
  mkDeviceAction uuid kind target action value pending None None.

(** [x or ""] *)
Definition or_empty (x : option string) : string :=
  match x with
  | Some s => s
  | None => ""
  end.

(** The action built by lines 225-231, or [None] when nothing is enqueued. *)
Definition to_action (uuid : string) (intent : option Intent)
  : option DeviceAction :=
  match intent with
  | None => None
  | Some i =>
      match i_type i with
      | open_app =>
          Some (new_action uuid k_open_app (or_empty (i_target i))
                  (Some "open") None)
      | toggle_setting =>
          Some (new_action uuid k_toggle (or_empty (i_target i))
                  (i_action i) None)
      | adjust_setting =>
          Some (new_action uuid k_adjust (or_empty (i_target i))
                  (i_action i) (i_value i))
      | unknown => None
      end
  end.

(** [create_interaction]; [oid1] and [oid2] are the ObjectIds the store
    hands out and [uuid] the value of [uuid4()]. The result is the [id] of
    the response and the database afterwards. *)
Definition create_interaction (db : Database) (oid1 oid2 uuid : string)
    (item : Interaction) : string * Database :=
  let (_id, db1) := create_interaction_document db oid1 item in
  match to_action uuid (it_intent item) with
  | Some action => (_id, snd (create_deviceaction_document db1 oid2 action))
  | None => (_id, db1)
  end.

Definition is_pending (d : Doc) : bool :=
  Status_eqb (da_status (doc_body d)) pending.

Definition has_oid (oid : string) (d : Doc) : bool :=
  String.eqb (doc_oid d) oid.

Definition has_id (action_id : string) (d : Doc) : bool :=
  String.eqb (da_id (doc_body d)) action_id.

(** [{"$set": {"status": "reserved", "device_id": ..., "updated_at": ...}}] *)
Definition set_reserved (device_id : option string) (now : Z) (d : Doc) : Doc :=
  let b := doc_body d in
  mkDoc (doc_oid d)
    (mkDeviceAction (da_id b) (da_kind b) (da_target b) (da_action b)
       (da_value b) reserved device_id (da_result b))
    (Some now).

(** The model returned by lines 265-275. *)
Definition reserved_view (device_id : option string) (p : Doc) : DeviceAction :=
  let b := doc_body p in
  mkDeviceAction
    (if Str.is_empty (da_id b) then doc_oid p else da_id b)
    (da_kind b) (da_target b) (da_action b) (da_value b)
    reserved device_id None.

(** [get_next_action], one call run without interruption. *)
Definition get_next_action (db : option Database) (device_id : option string)
    (now : Z) : option DeviceAction * option Database :=
  match db with
  | None => (None, db)
  | Some d =>
      match find_one is_pending (deviceaction d) with
      | None => (None, db)
      | Some p =>
          let c := fst (update_one (has_oid (doc_oid p))
                          (set_reserved device_id now) (deviceaction d)) in
          (Some (reserved_view device_id p), Some (with_deviceaction d c))
      end
  end.

Inductive CompleteStatus : Type := cs_completed | cs_failed.

Definition status_of (s : CompleteStatus) : Status :=
  match s with
  | cs_completed => completed
  | cs_failed => failed
  end.

Record CompleteActionRequest : Type := mkCompleteActionRequest {
  cr_result : option (list (string * Any));
  cr_status : CompleteStatus;
}.

(** [{"$set": {"status": ..., "result": ..., "updated_at": ...}}] *)
Definition set_completed (payload : CompleteActionRequest) (now : Z) (d : Doc)
  : Doc :=
  let b := doc_body d in
  mkDoc (doc_oid d)
    (mkDeviceAction (da_id b) (da_kind b) (da_target b) (da_action b)
       (da_value b) (status_of (cr_status payload)) (da_device_id b)
       (cr_result payload))
    (Some now).

Inductive Ok : Type := ok_true.

Definition complete_action (db : option Database) (action_id : string)
    (payload : CompleteActionRequest) (now : Z)
  : outcome Ok * option Database :=
  match db with
  | None => (Raises (HTTPException 500 "Database not configured"), db)
  | Some d =>
      let (c, matched_count) :=
        update_one (has_id action_id) (set_completed payload now)
          (deviceaction d) in
      if Nat.eqb matched_count 0
      then (Raises (HTTPException 404 "Action not found"),
            Some (with_deviceaction d c))
      else (Returns ok_true, Some (with_deviceaction d c))
  end.

(* ------------------------------------------------------------------ *)
(** ** Overlapping polls

    [get_next_action] talks to the store twice: [find_one] (line 261) and
    [update_one] (line 264). Each of the two is one indivisible operation of
    the store; between them another request may run. A poll is therefore a
    little machine with two moves, and a schedule says which poll moves
    next. *)

Inductive Progress : Type :=
| AtFind
| AtUpdate (p : Doc)
| Done (r : option DeviceAction).

Record Poll : Type := mkPoll {
  poll_device : option string;
  poll_now : Z;
  poll_at : Progress;
}.

Definition move (db : option Database) (q : Poll) : option Database * Poll :=
  match poll_at q with
  | AtFind =>
      match db with
      | None => (db, mkPoll (poll_device q) (poll_now q) (Done None))
      | Some d =>
          match find_one is_pending (deviceaction d) with
          | None => (db, mkPoll (poll_device q) (poll_now q) (Done None))
          | Some p => (db, mkPoll (poll_device q) (poll_now q) (AtUpdate p))
          end
      end
  | AtUpdate p =>
      match db with
      | None => (db, q)
      | Some d =>
          let c := fst (update_one (has_oid (doc_oid p))
                          (set_reserved (poll_device q) (poll_now q))
                          (deviceaction d)) in
          (Some (with_deviceaction d c),
           mkPoll (poll_device q) (poll_now q)
             (Done (Some (reserved_view (poll_device q) p))))
      end
  | Done _ => (db, q)
  end.

Fixpoint replace_nth {A : Type} (n : nat) (x : A) (l : list A) : list A :=
  match l, n with
  | [], _ => []
  | _ :: l', O => x :: l'
  | y :: l', S n' => y :: replace_nth n' x l'
  end.

(** One entry of a schedule: poll number [i] makes its next move. *)
Definition sched_step (st : option Database * list Poll) (i : nat)
  : option Database * list Poll :=
  match nth_error (snd st) i with
  | None => st
  | Some q =>
      let (db', q') := move (fst st) q in (db', replace_nth i q' (snd st))
  end.

Definition run_schedule (sched : list nat) (st : option Database * list Poll)
  : option Database * list Poll :=
  fold_left sched_step sched st.

(** What each poll has answered so far. *)
Definition answers (ps : list Poll) : list (option (option DeviceAction)) :=
  map (fun q => match poll_at q with Done r => Some r | _ => None end) ps.

(** Polls run one after the other, each to its end. *)
Fixpoint poll_all (db : option Database) (calls : list (option string * Z))
  : list (option DeviceAction) * option Database :=
  match calls with
  | [] => ([], db)
  | (device_id, now) :: calls' =>
      let (r, db1) := get_next_action db device_id now in
      let (rs, db2) := poll_all db1 calls' in
      (r :: rs, db2)
  end.

(* ------------------------------------------------------------------ *)
(** ** Vocabulary of the properties *)

(** The intent [parse_intent] starts from (line 112). *)
Definition blank (text : string) : Intent :=
  mkIntent unknown None None None (Some text).

(** The documents of the queue; none when no database is configured. *)
Definition docs (db : option Database) : list Doc :=
  match db with
  | Some d => deviceaction d
  | None => []
  end.

(** The fields fixed at creation. *)
Definition fixed_fields (d : Doc)
  : string * Kind * string * option string * option Any :=
  let b := doc_body d in
  (da_id b, da_kind b, da_target b, da_action b, da_value b).

(** Everything a poll leaves alone, and everything a completion leaves
    alone. *)
Definition kept_by_claim (d : Doc) :=
  (doc_oid d, fixed_fields d, da_result (doc_body d)).

Definition kept_by_complete (d : Doc) :=
  (doc_oid d, fixed_fields d, da_device_id (doc_body d)).

(** The documents [ps] handed out in the order given, one per poll, then no
    work. *)
Fixpoint answers_in_order (ps : list Doc) (calls : list (option string * Z))
  : list (option DeviceAction) :=
  match calls with
  | [] => []
  | (device_id, _) :: calls' =>
      match ps with
      | [] => None :: answers_in_order [] calls'
      | p :: ps' =>
          Some (reserved_view device_id p) :: answers_in_order ps' calls'
      end
  end.

(** A queue holding one pending action, and two devices about to poll. *)
Definition camera_action : DeviceAction :=
  new_action "a1" k_open_app "camera" (Some "open") None.

Definition one_pending : option Database :=
  Some {| interaction := [];
          deviceaction := [mkDoc "oid1" camera_action None] |}.

Definition two_polls : list Poll :=
  [mkPoll (Some "phone") 10 AtFind; mkPoll (Some "tablet") 11 AtFind].

(** A queue whose only action has been completed. *)
Definition one_completed : option Database :=
  Some {| interaction := [];
          deviceaction :=
            [mkDoc "oid1"
               (mkDeviceAction "a1" k_open_app "camera" (Some "open") None
                  completed (Some "phone") (Some [("opened", ABool true)]))
               (Some 20%Z)] |}.

Definition empty_db : Database := {| interaction := []; deviceaction := [] |}.

(** Two interactions posted one after the other: first [open camera], then
    [turn on wifi], each with the intent the classifier gives it. *)
Definition intent_of (text : string) : option Intent :=
  match parse_intent text with
  | Returns i => Some i
  | Raises _ => None
  end.

Definition two_enqueued : Database :=
  let db1 := snd (create_interaction empty_db "i1" "o1" "u1"
                    (mkInteraction user "open camera"
                       (intent_of "open camera"))) in
  snd (create_interaction db1 "i2" "o2" "u2"
         (mkInteraction user "turn on wifi" (intent_of "turn on wifi"))).

(* ------------------------------------------------------------------ *)
(** ** Vocabulary for the normalizer *)

(** [all(p(c) for c in s)] *)
Fixpoint all_chars (p : ascii -> bool) (s : string) : bool :=
  match s with
  | EmptyString => true
  | String c s' => p c && all_chars p s'
  end.

Definition not_space (c : ascii) : bool := negb (Str.is_space c).

(** a non-empty run of characters none of which is white space *)
Definition is_word (w : string) : bool :=
  negb (Str.is_empty w) && all_chars not_space w.

(** white space other than the plain space does not occur *)
Definition plain_space_only (c : ascii) : bool :=
  not_space c || Ascii.eqb c " ".

(** [c.lower() == c] *)
Definition is_lowered (c : ascii) : bool := Ascii.eqb (Str.lower_char c) c.

(** what [split_from] gives when the text ends or a space is met *)
Definition flush (w : string) (rest : list string) : list string :=
  if Str.is_empty w then rest else w :: rest.

Definition starts_nonspace (s : string) : bool :=
  match s with
  | EmptyString => false
  | String c _ => not_space c
  end.

(* ------------------------------------------------------------------ *)
(** ** Vocabulary for the classifier and the queue *)

(** the intent [i] as it would be for another original text *)
Definition retext (raw : string) (i : Intent) : Intent :=
  mkIntent (i_type i) (i_target i) (i_action i) (i_value i) (Some raw).

Definition retext_outcome (raw : string) (o : outcome Intent) : outcome Intent :=
  match o with
  | Returns i => Returns (retext raw i)
  | Raises e => Raises e
  end.

(** the canonical names of a table *)
Definition keys (table : list (string * list string)) : list string :=
  map fst table.

(** a value read from a percentage is a natural number *)
Definition is_natural (v : option Any) : Prop :=
  match v with
  | None => True
  | Some (AInt z) => (0 <= z)%Z
  | Some _ => False
  end.

(** every alias of every row of [table] is taken, by [resolve], to the key
    of its own row *)
Definition aliases_resolve (resolve : string -> option string)
    (table : list (string * list string)) : bool :=
  forallb (fun row =>
             forallb (fun a =>
                        match resolve a with
                        | Some k => String.eqb k (fst row)
                        | None => false
                        end) (snd row)) table.

Definition classified (text : string) : option (IntentType * option string) :=
  match parse_intent text with
  | Returns i => Some (i_type i, i_action i)
  | Raises _ => None
  end.

Definition target_of (text : string) : option string :=
  match parse_intent text with
  | Returns i => i_target i
  | Raises _ => None
  end.

Definition is_some {A : Type} (x : option A) : bool :=
  match x with
  | Some _ => true
  | None => false
  end.

(** The tiers as a priority table over the normalized text [t]. *)
Definition decided_type (t : string) : IntentType :=
  if open_prefix t then open_app
  else if (any_in ON_WORDS t || any_in OFF_WORDS t)
          && is_some (first_key (alias_in t) SETTINGS)
  then toggle_setting
  else if any_in ADJUST_WORDS t
          && is_some (first_key (alias_in t) ADJUSTABLES)
  then adjust_setting
  else unknown.

Definition decided_action (t : string) : option string :=
  match decided_type t with
  | open_app => Some "open"
  | toggle_setting => if any_in ON_WORDS t then Some "on" else Some "off"
  | adjust_setting =>
      if any_in UP_WORDS t then Some "increase"
      else if any_in DOWN_WORDS t then Some "decrease"
      else if Str.startswith t "set " then Some "set"
      else None
  | unknown => None
  end.

(** What an intent of each type looks like. *)
Definition well_shaped (i : Intent) : Prop :=
  match i_type i with
  | open_app =>
      (exists tg, i_target i = Some tg /\ tg <> ""%string)
      /\ i_action i = Some "open"%string /\ i_value i = None
  | toggle_setting =>
      (exists k, i_target i = Some k /\ In k (keys SETTINGS))
      /\ (i_action i = Some "on"%string \/ i_action i = Some "off"%string)
      /\ i_value i = None
  | adjust_setting =>
      (exists k, i_target i = Some k /\ In k (keys ADJUSTABLES))
      /\ In (i_action i)
           [None; Some "increase"%string; Some "decrease"%string;
            Some "set"%string]
      /\ is_natural (i_value i)
  | unknown => i_target i = None /\ i_action i = None /\ i_value i = None
  end.

(** The kind under which an intent of each type is queued. *)
Definition kind_of (ty : IntentType) : option Kind :=
  match ty with
  | open_app => Some k_open_app
  | toggle_setting => Some k_toggle
  | adjust_setting => Some k_adjust
  | unknown => None
  end.

Definition oids (c : list Doc) : list string := map doc_oid c.

Definition ids (c : list Doc) : list string :=
  map (fun d => da_id (doc_body d)) c.

(** No two documents share an [_id], none shares an [id], and every [id] is
    a non-empty string. *)
Definition store_ok (c : list Doc) : Prop :=
  NoDup (oids c) /\ NoDup (ids c) /\ ~ In ""%string (ids c).

Definition is_error {A : Type} (o : outcome A) : bool :=
  match o with
  | Returns _ => false
  | Raises _ => true
  end.

(** [y] is what became of [x]: if [y] is pending, nothing happened to it. *)
Definition pending_means_untouched (x y : Doc) : Prop :=
  is_pending y = true -> y = x.

Definition pending_count (c : list Doc) : nat :=
  length (filter is_pending c).





(** the last character of [s] is a digit *)
Fixpoint ends_with_digit (s : string) : bool :=
  match s with
  | EmptyString => false
  | String c s' => if Str.is_empty s' then Str.is_digit c else ends_with_digit s'
  end.

(* ------------------------------------------------------------------ *)
(** ** Documents as the read handlers see them *)

(** A value of a stored document: null, a JSON scalar, an ObjectId or a
    time stamp. *)
Inductive Field : Type :=
| FNull
| FAny (a : Any)
| FObjectId (hex : string)
| FDatetime (t : Z).

(** A document as a dict: its items in order. *)
Definition document : Type := list (string * Field).

(** [d.get(k)] *)
Fixpoint doc_get (k : string) (d : document) : option Field :=
  match d with
  | [] => None
  | (k', v) :: d' => if String.eqb k' k then Some v else doc_get k d'
  end.

(** [{**d, k: v}] *)
Fixpoint doc_set (k : string) (v : Field) (d : document) : document :=
  match d with
  | [] => [(k, v)]
  | (k', v') :: d' =>
      if String.eqb k' k then (k', v) :: d' else (k', v') :: doc_set k v d'
  end.

Definition EMOTION_KEYS : list string := ["mood"; "arousal"; "notes"]%string.

(** [EmotionState().model_dump()] *)
Definition default_emotion : document :=
  [("mood"%string, FAny (AStr "neutral")); ("arousal"%string, FAny (AInt 5));
   ("notes"%string, FNull)].

Definition in_keys (ks : list string) (k : string) : bool :=
  existsb (String.eqb k) ks.

(** [get_latest_emotion], [docs] being what
    [get_documents("emotionstate", {}, 1)] returned. *)
Definition get_latest_emotion (docs : list document) : document :=
  match docs with
  | [] => default_emotion
  | _ => filter (fun kv => in_keys EMOTION_KEYS (fst kv)) (last docs [])
  end.

(** [list_interactions], [docs] being what
    [get_documents("interaction", {}, limit)] returned and [str] the
    conversion of a value to a string. *)
Definition list_interactions (str : Field -> string) (docs : list document)
  : list document :=
  map (fun d =>
         doc_set "_id"
           (FAny (AStr (str (match doc_get "_id" d with
                             | Some v => v
                             | None => FNull
                             end)))) d) docs.

(** [c * n] *)
Fixpoint repeat_char (c : ascii) (n : nat) : string :=
  match n with
  | O => EmptyString
  | S n' => String c (repeat_char c n')
  end.

(** A queue whose only action was stored with an empty [id]. *)
Definition one_pending_without_id : Database :=
  {| interaction := [];
     deviceaction :=
       [mkDoc "oid9" (new_action "" k_toggle "wifi" (Some "on") None) None] |}.

(* ------------------------------------------------------------------ *)
(** ** The classifier on the documented examples *)

Example parse_open_whats_app :
  parse_intent "open whats app"
  = Returns (mkIntent open_app (Some "whatsapp") (Some "open") None
               (Some "open whats app")).
Proof. reflexivity. Qed.

Example parse_open_foobar :
  parse_intent "  Open   FooBar "
  = Returns (mkIntent open_app (Some "foobar") (Some "open") None
               (Some "  Open   FooBar ")).
Proof. reflexivity. Qed.

Example parse_turn_on_wifi :
  parse_intent "please turn on wifi now"
  = Returns (mkIntent toggle_setting (Some "wifi") (Some "on") None
               (Some "please turn on wifi now")).
Proof. reflexivity. Qed.

Example parse_increase_volume :
  parse_intent "increase volume to 40%"
  = Returns (mkIntent adjust_setting (Some "volume") (Some "increase")
               (Some (AInt 40)) (Some "increase volume to 40%")).
Proof. reflexivity. Qed.

Example parse_barrel_roll :
  parse_intent "do a barrel roll"
  = Returns (mkIntent unknown None None None (Some "do a barrel roll")).
Proof. reflexivity. Qed.

(* ------------------------------------------------------------------ *)
(** ** Facts about the string primitives *)

Lemma prefix_app (p s : string) :
  String.prefix p s = true -> exists r, s = p ++ r.
Proof.
  revert s; induction p as [|a p IH]; intros s H.
  - exists s; reflexivity.
  - destruct s as [|b s]; simpl in H; [discriminate|].
    destruct (ascii_dec a b) as [->|]; [|discriminate].
    destruct (IH s H) as [r ->]. exists r; reflexivity.
Qed.

Lemma split_space_1_open (r : string) :
  Str.split_space_1 ("open " ++ r) = ["open"; r].
Proof. reflexivity. Qed.

Lemma split_space_1_launch (r : string) :
  Str.split_space_1 ("launch " ++ r) = ["launch"; r].
Proof. reflexivity. Qed.

Lemma open_prefix_app (t : string) :
  open_prefix t = true -> exists r, t = "open " ++ r \/ t = "launch " ++ r.
Proof.
  unfold open_prefix, Str.startswith; intros H.
  apply orb_true_iff in H as [H|H]; apply prefix_app in H as [r ->];
    exists r; [left|right]; reflexivity.
Qed.

Lemma open_prefix_of_app (r : string) :
  open_prefix ("open " ++ r) = true /\ open_prefix ("launch " ++ r) = true.
Proof. destruct r; split; reflexivity. Qed.

Lemma app_name_of_open_prefix (t : string) :
  open_prefix t = true ->
  exists r, (t = "open " ++ r \/ t = "launch " ++ r)
            /\ nth_error (Str.split_space_1 t) 1 = Some r.
Proof.
  intros H; destruct (open_prefix_app t H) as [r [-> | ->]]; exists r;
    (split; [auto | reflexivity]).
Qed.

(* ------------------------------------------------------------------ *)
(** ** The classifier *)

Lemma set_intent_raw_text i ty tg a v :
  i_raw_text (set_intent i ty tg a v) = i_raw_text i.
Proof. reflexivity. Qed.

Lemma int_returns (ds : string) (z : Z) :
  Str.int ds = Returns z -> z = Str.int_of_digits ds.
Proof.
  unfold Str.int. destruct (_ <? _)%N; [discriminate | now intros [= <-]].
Qed.

Lemma int_raises (ds : string) (e : exn) :
  Str.int ds = Raises e ->
  e = ValueError
  /\ (Str.MAX_STR_DIGITS < N.of_nat (String.length ds))%N.
Proof.
  unfold Str.int. destruct (_ <? _)%N eqn:H; [|discriminate].
  intros [= <-]. split; [reflexivity | now apply N.ltb_lt].
Qed.

Lemma adjust_tier_raw_text t i j :
  adjust_tier t i = Returns j -> i_raw_text j = i_raw_text i.
Proof.
  unfold adjust_tier.
  destruct (any_in ADJUST_WORDS t); [|now intros [= <-]].
  destruct (first_key (alias_in t) ADJUSTABLES); [|now intros [= <-]].
  destruct (Str.search_percent t) as [ds|]; [|now intros [= <-]].
  destruct (Str.int ds); [now intros [= <-] | discriminate].
Qed.

Lemma toggle_off_tier_raw_text t i j :
  toggle_off_tier t i = Returns j -> i_raw_text j = i_raw_text i.
Proof.
  unfold toggle_off_tier.
  destruct (any_in OFF_WORDS t); [|apply adjust_tier_raw_text].
  destruct (first_key (alias_in t) SETTINGS);
    [now intros [= <-] | apply adjust_tier_raw_text].
Qed.

Lemma toggle_on_tier_raw_text t i j :
  toggle_on_tier t i = Returns j -> i_raw_text j = i_raw_text i.
Proof.
  unfold toggle_on_tier.
  destruct (any_in ON_WORDS t); [|apply toggle_off_tier_raw_text].
  destruct (first_key (alias_in t) SETTINGS);
    [now intros [= <-] | apply toggle_off_tier_raw_text].
Qed.

Lemma adjust_tier_raises t i e :
  adjust_tier t i = Raises e ->
  e = ValueError
  /\ exists ds,
      Str.search_percent t = Some ds
      /\ (Str.MAX_STR_DIGITS < N.of_nat (String.length ds))%N.
Proof.
  unfold adjust_tier.
  destruct (any_in ADJUST_WORDS t); [|discriminate].
  destruct (first_key (alias_in t) ADJUSTABLES); [|discriminate].
  destruct (Str.search_percent t) as [ds|]; [|discriminate].
  destruct (Str.int ds) eqn:E; [discriminate|].
  intros [= <-]. destruct (int_raises _ _ E) as [-> H]. eauto.
Qed.

(** The classifier raises only where [int] refuses a percentage of more
    digits than the limit; the index [1] of line 116 is always there. *)
Lemma parse_intent_raises (text : string) (e : exn) :
  parse_intent text = Raises e ->
  e = ValueError
  /\ exists ds,
      Str.search_percent (normalize text) = Some ds
      /\ (Str.MAX_STR_DIGITS < N.of_nat (String.length ds))%N.
Proof.
  unfold parse_intent.
  destruct (open_prefix (normalize text)) eqn:Hp.
  - destruct (app_name_of_open_prefix _ Hp) as [r [_ ->]].
    destruct (first_key (app_matches r) COMMON_APPS); discriminate.
  - unfold toggle_on_tier, toggle_off_tier.
    destruct (first_key (alias_in (normalize text)) SETTINGS);
      destruct (any_in ON_WORDS (normalize text));
      destruct (any_in OFF_WORDS (normalize text));
      try discriminate; apply adjust_tier_raises.
Qed.

(** The original text is kept on every path. *)
Lemma parse_intent_raw_text (text : string) (i : Intent) :
  parse_intent text = Returns i -> i_raw_text i = Some text.
Proof.
  unfold parse_intent.
  destruct (open_prefix (normalize text)).
  - destruct (nth_error _ 1); [|discriminate].
    destruct (first_key _ COMMON_APPS); intros [= <-]; reflexivity.
  - intros H. now apply toggle_on_tier_raw_text in H.
Qed.

Lemma adjust_tier_target t text i :
  adjust_tier t (blank text) = Returns i ->
  i_type i <> unknown -> i_target i <> None.
Proof.
  unfold adjust_tier.
  destruct (any_in ADJUST_WORDS t); [|intros [= <-] H; now elim H].
  destruct (first_key (alias_in t) ADJUSTABLES);
    [|intros [= <-] H; now elim H].
  destruct (Str.search_percent t) as [ds|]; [|intros [= <-]; discriminate].
  destruct (Str.int ds); [intros [= <-]; discriminate | discriminate].
Qed.

(** A result that is not [unknown] always names a target. *)
Lemma parse_intent_target (text : string) (i : Intent) :
  parse_intent text = Returns i -> i_type i <> unknown -> i_target i <> None.
Proof.
  unfold parse_intent.
  destruct (open_prefix (normalize text)).
  - destruct (nth_error _ 1); [|discriminate].
    destruct (first_key _ COMMON_APPS); intros [= <-] _; discriminate.
  - unfold toggle_on_tier, toggle_off_tier.
    fold (blank text).
    destruct (first_key (alias_in (normalize text)) SETTINGS);
      destruct (any_in ON_WORDS (normalize text));
      destruct (any_in OFF_WORDS (normalize text));
      try (intros [= <-]; discriminate); apply adjust_tier_target.
Qed.

(** A percentage of 4301 digits: line 163 raises. *)
Example parse_intent_long_percentage_raises :
  parse_intent
    ("turn on and raise the volume " ++ repeat_char "9" 4301 ++ "%")
  = Raises ValueError.
Proof. vm_compute. reflexivity. Qed.

(** A percentage of 4300 digits is still read. *)
Example parse_intent_longest_percentage_returns :
  parse_intent ("raise the volume " ++ repeat_char "0" 4299 ++ "7%")
  = Returns (mkIntent adjust_setting (Some "volume") (Some "increase")
               (Some (AInt 7))
               (Some ("raise the volume " ++ repeat_char "0" 4299 ++ "7%"))).
Proof. vm_compute. reflexivity. Qed.

(** C2, at the input where the code departs from the invariant: the word
    [set] after another word opens the adjust tier (line 148 looks for it
    anywhere) but line 154 only names the action when the text starts with
    it, so the intent is [adjust_setting] with a target and no action. *)
Theorem parse_intent_adjust_without_action :
  parse_intent "please set volume"
  = Returns (mkIntent adjust_setting (Some "volume") None None
               (Some "please set volume")).
Proof. reflexivity. Qed.

(** C4 as written fails on raw input: the text [open ] starts with the
    prefix, but normalization trims it to [open], which no tier matches. *)
Lemma open_then_blank_is_unknown :
  Str.startswith "open " "open " = true
  /\ parse_intent "open "
     = Returns (mkIntent unknown None None None (Some "open ")).
Proof. split; reflexivity. Qed.

(** C4, amended: when the normalized text starts with [open ] or [launch ],
    the result is an [open_app] intent with action [open] whose target is the
    key of the first known app that the remainder names, or else the
    remainder itself; no later tier is consulted. *)
Theorem open_tier_decides (text rest : string) :
  normalize text = "open " ++ rest \/ normalize text = "launch " ++ rest ->
  exists target,
    parse_intent text
    = Returns (mkIntent open_app (Some target) (Some "open") None (Some text))
    /\ target = match first_key (app_matches rest) COMMON_APPS with
                | Some key => key
                | None => rest
                end.
Proof.
  intros H.
  assert (Hp : open_prefix (normalize text) = true)
    by (destruct H as [-> | ->]; apply open_prefix_of_app).
  assert (Hn : nth_error (Str.split_space_1 (normalize text)) 1 = Some rest)
    by (destruct H as [-> | ->]; reflexivity).
  unfold parse_intent. rewrite Hp, Hn.
  destruct (first_key (app_matches rest) COMMON_APPS);
    eexists; split; reflexivity.
Qed.

Lemma open_tier_decides_witness :
  normalize " Launch   Foo Bar" = "launch " ++ "foo bar"
  /\ parse_intent " Launch   Foo Bar"
     = Returns (mkIntent open_app (Some "foo bar") (Some "open") None
                  (Some " Launch   Foo Bar")).
Proof.
  split; [reflexivity|].
  destruct (open_tier_decides " Launch   Foo Bar" "foo bar") as [tg [E ->]];
    [right; reflexivity | exact E].
Defined.

(** C9: when a toggle trigger is present and no setting alias occurs in the
    text, neither toggle tier answers: the toggle tiers end as the adjust
    tier (with its [unknown] fallback) ends, and so does the classifier
    whenever the open tier has not taken the text. *)
Theorem toggle_without_setting_falls_through (text : string) :
  any_in ON_WORDS (normalize text) = true
  \/ any_in OFF_WORDS (normalize text) = true ->
  first_key (alias_in (normalize text)) SETTINGS = None ->
  toggle_on_tier (normalize text) (blank text)
  = adjust_tier (normalize text) (blank text)
  /\ (open_prefix (normalize text) = false ->
      parse_intent text = adjust_tier (normalize text) (blank text)).
Proof.
  intros _ Hs.
  assert (E : toggle_on_tier (normalize text) (blank text)
              = adjust_tier (normalize text) (blank text)).
  { unfold toggle_on_tier, toggle_off_tier. rewrite Hs.
    destruct (any_in ON_WORDS _), (any_in OFF_WORDS _); reflexivity. }
  split; [exact E|].
  intros Hp. unfold parse_intent. rewrite Hp. fold (blank text). exact E.
Qed.

Lemma toggle_without_setting_falls_through_witness :
  any_in ON_WORDS (normalize "turn on and raise the volume") = true
  /\ first_key (alias_in (normalize "turn on and raise the volume")) SETTINGS
     = None
  /\ open_prefix (normalize "turn on and raise the volume") = false
  /\ parse_intent "turn on and raise the volume"
     = Returns (mkIntent adjust_setting (Some "volume") (Some "increase") None
                  (Some "turn on and raise the volume")).
Proof.
  refine (conj eq_refl (conj eq_refl (conj eq_refl _))).
  rewrite (proj2 (toggle_without_setting_falls_through
                    "turn on and raise the volume"
                    (or_introl eq_refl) eq_refl) eq_refl).
  reflexivity.
Defined.

(* ------------------------------------------------------------------ *)
(** ** The store operations *)

Section UpdateOne.

Variables (flt : Doc -> bool) (upd : Doc -> Doc).

Lemma update_one_map {A : Type} (f : Doc -> A) (c : list Doc) :
  (forall d, f (upd d) = f d) ->
  map f (fst (update_one flt upd c)) = map f c.
Proof.
  intros Hf. induction c as [|x c IH]; simpl; [reflexivity|].
  destruct (flt x); simpl.
  - now rewrite Hf.
  - destruct (update_one flt upd c) as [c' n]; simpl in *.
    now rewrite IH.
Qed.

Lemma update_one_none (c : list Doc) :
  find flt c = None -> update_one flt upd c = (c, 0).
Proof.
  induction c as [|x c IH]; simpl; [reflexivity|].
  destruct (flt x); [discriminate|].
  intros H. now rewrite (IH H).
Qed.

Lemma update_one_some (c : list Doc) (x : Doc) :
  find flt c = Some x -> snd (update_one flt upd c) = 1.
Proof.
  induction c as [|y c IH]; simpl; [discriminate|].
  destruct (flt y); [reflexivity|].
  intros H. specialize (IH H).
  destruct (update_one flt upd c); assumption.
Qed.

Lemma update_one_find (c : list Doc) (x : Doc) :
  (forall d, flt (upd d) = flt d) ->
  find flt c = Some x ->
  find flt (fst (update_one flt upd c)) = Some (upd x).
Proof.
  intros Hk. induction c as [|y c IH]; simpl; [discriminate|].
  destruct (flt y) eqn:Hy.
  - intros [= <-]. simpl. now rewrite Hk, Hy.
  - intros H. specialize (IH H).
    destruct (update_one flt upd c); simpl in *. now rewrite Hy.
Qed.

End UpdateOne.


Lemma find_none_iff (flt : Doc -> bool) (c : list Doc) :
  find flt c = None <-> forall x, In x c -> flt x = false.
Proof.
  split.
  - intros H x Hx. exact (find_none flt c H x Hx).
  - induction c as [|y c IH]; simpl; [reflexivity|]. intros H.
    rewrite (H y (or_introl eq_refl)). apply IH. intros x Hx. apply H. now right.
Qed.

Lemma set_completed_keeps_id action_id payload now d :
  has_id action_id (set_completed payload now d) = has_id action_id d.
Proof. reflexivity. Qed.

Lemma set_completed_twice p1 t1 p2 t2 d :
  set_completed p2 t2 (set_completed p1 t1 d) = set_completed p2 t2 d.
Proof. reflexivity. Qed.


Lemma find_has_id_in (action_id : string) (c : list Doc) :
  (exists x, In x c /\ da_id (doc_body x) = action_id) ->
  exists x, find (has_id action_id) c = Some x.
Proof.
  intros [x [Hin Hid]].
  destruct (find (has_id action_id) c) eqn:E; [eauto|].
  pose proof (find_none _ _ E x Hin) as H. unfold has_id in H.
  rewrite Hid, String.eqb_refl in H. discriminate.
Qed.

(* ------------------------------------------------------------------ *)
(** ** Completing an action *)

Lemma complete_action_unfold (d : Database) action_id payload now :
  complete_action (Some d) action_id payload now
  = (if Nat.eqb (snd (update_one (has_id action_id)
                        (set_completed payload now) (deviceaction d))) 0
     then Raises (HTTPException 404 "Action not found")
     else Returns ok_true,
     Some (with_deviceaction d
             (fst (update_one (has_id action_id)
                     (set_completed payload now) (deviceaction d))))).
Proof.
  unfold complete_action.
  destruct (update_one _ _ _) as [c n]; simpl. now destruct (Nat.eqb n 0).
Qed.


(** C7: with the database configured, [complete_action] answers 404 exactly
    when no document carries the id; when one does, it answers ok and the
    first such document now holds the status and the result of the request. *)
Theorem complete_action_not_found_iff (d : Database) (action_id : string)
    (payload : CompleteActionRequest) (now : Z) :
  let r := complete_action (Some d) action_id payload now in
  (fst r = Raises (HTTPException 404 "Action not found")
   <-> forall x, In x (deviceaction d) -> da_id (doc_body x) <> action_id)
  /\ ((exists x, In x (deviceaction d) /\ da_id (doc_body x) = action_id) ->
      fst r = Returns ok_true
      /\ exists x x',
          find_one (has_id action_id) (deviceaction d) = Some x
          /\ find_one (has_id action_id) (docs (snd r)) = Some x'
          /\ doc_oid x' = doc_oid x
          /\ da_status (doc_body x') = status_of (cr_status payload)
          /\ da_result (doc_body x') = cr_result payload).
Proof.
  cbv zeta. rewrite complete_action_unfold. cbn [fst snd docs].
  split.
  - split.
    + intros H x Hin Hid.
      destruct (find_has_id_in action_id (deviceaction d)) as [y Hy]; [eauto|].
      rewrite (update_one_some _ _ _ _ Hy) in H. discriminate.
    + intros H.
      assert (E : find (has_id action_id) (deviceaction d) = None).
      { apply find_none_iff. intros x Hx. unfold has_id.
        apply String.eqb_neq. now apply H. }
      now rewrite (update_one_none _ _ _ E).
  - intros Hex. destruct (find_has_id_in _ _ Hex) as [x Hx].
    rewrite (update_one_some _ _ _ _ Hx). split; [reflexivity|].
    exists x, (set_completed payload now x). unfold find_one.
    split; [exact Hx|]. split; [|repeat split].
    apply update_one_find; [reflexivity | exact Hx].
Qed.

Lemma complete_action_not_found_iff_witness :
  (exists x, In x (docs one_pending) /\ da_id (doc_body x) = "a1")
  /\ fst (complete_action one_pending "a1"
            (mkCompleteActionRequest None cs_failed) 30)
     = Returns ok_true.
Proof.
  assert (H : exists x, In x (docs one_pending) /\ da_id (doc_body x) = "a1")
    by (eexists; split; [left; reflexivity | reflexivity]).
  split; [exact H|].
  exact (proj1 (proj2 (complete_action_not_found_iff _ "a1"
                         (mkCompleteActionRequest None cs_failed) 30) H)).
Defined.




(* ------------------------------------------------------------------ *)
(** ** Polling for the next action *)

Lemma set_reserved_not_pending device_id now d :
  is_pending (set_reserved device_id now d) = false.
Proof. reflexivity. Qed.

Lemma find_some_in (flt : Doc -> bool) (c : list Doc) (x : Doc) :
  find flt c = Some x -> In x c /\ flt x = true.
Proof. apply find_some. Qed.

(** Reserving the first pending document removes it, and nothing else, from
    the pending ones. *)
Lemma reserve_first_pending (c : list Doc) (p : Doc) device_id now :
  NoDup (map doc_oid c) ->
  find_one is_pending c = Some p ->
  filter is_pending c
  = p :: filter is_pending
           (fst (update_one (has_oid (doc_oid p))
                   (set_reserved device_id now) c)).
Proof.
  unfold find_one. induction c as [|x c IH]; simpl; [discriminate|].
  intros Hnd Hf. inversion Hnd as [|? ? Hnotin Hnd']; subst.
  destruct (is_pending x) eqn:Hx.
  - injection Hf as <-. unfold has_oid at 1. rewrite String.eqb_refl.
    simpl. reflexivity.
  - destruct (find_some_in _ _ _ Hf) as [Hin _].
    assert (Hne : has_oid (doc_oid p) x = false).
    { unfold has_oid. apply String.eqb_neq. intros E. apply Hnotin.
      rewrite E. now apply in_map. }
    rewrite Hne. specialize (IH Hnd' Hf).
    destruct (update_one _ _ c) as [c' n]; simpl in *.
    now rewrite Hx.
Qed.

Lemma get_next_action_some (d : Database) (p : Doc) device_id now :
  find_one is_pending (deviceaction d) = Some p ->
  get_next_action (Some d) device_id now
  = (Some (reserved_view device_id p),
     Some (with_deviceaction d
             (fst (update_one (has_oid (doc_oid p))
                     (set_reserved device_id now) (deviceaction d))))).
Proof. intros H. unfold get_next_action. now rewrite H. Qed.

Lemma get_next_action_none (d : Database) device_id now :
  find_one is_pending (deviceaction d) = None ->
  get_next_action (Some d) device_id now = (None, Some d).
Proof. intros H. unfold get_next_action. now rewrite H. Qed.

Lemma filter_nil_find (c : list Doc) :
  filter is_pending c = [] -> find_one is_pending c = None.
Proof.
  unfold find_one. induction c as [|x c IH]; simpl; [reflexivity|].
  destruct (is_pending x); [discriminate | exact IH].
Qed.

Lemma filter_cons_find (c : list Doc) (p : Doc) (ps : list Doc) :
  filter is_pending c = p :: ps -> find_one is_pending c = Some p.
Proof.
  unfold find_one. induction c as [|x c IH]; simpl; [discriminate|].
  destruct (is_pending x); [now intros [= -> _] | exact IH].
Qed.

(** One poll: the answer is the first pending document, if any, and that
    document alone leaves the pending ones. *)
Lemma poll_step (d : Database) (device_id : option string) (now : Z) :
  NoDup (map doc_oid (deviceaction d)) ->
  exists d',
    get_next_action (Some d) device_id now
    = (match filter is_pending (deviceaction d) with
       | [] => None
       | p :: _ => Some (reserved_view device_id p)
       end, Some d')
    /\ NoDup (map doc_oid (deviceaction d'))
    /\ filter is_pending (deviceaction d')
       = tl (filter is_pending (deviceaction d)).
Proof.
  intros Hnd.
  destruct (filter is_pending (deviceaction d)) as [|p ps] eqn:Hps.
  - exists d. rewrite (get_next_action_none d _ _ (filter_nil_find _ Hps)).
    rewrite Hps. auto.
  - pose proof (filter_cons_find _ _ _ Hps) as Hf.
    rewrite (get_next_action_some d p device_id now Hf).
    eexists; split; [reflexivity|]. cbn [deviceaction with_deviceaction]. split.
    + rewrite update_one_map; [exact Hnd | reflexivity].
    + pose proof (reserve_first_pending _ _ device_id now Hnd Hf) as Hr.
      rewrite Hps in Hr. now injection Hr as <-.
Qed.

(** X23: polls made one after the other are answered with the pending
    documents in the order in which the collection holds them, each marked
    [reserved] for the polling device; once they are used up the answer is
    no work. *)
Theorem polls_answer_in_collection_order (d : Database)
    (calls : list (option string * Z)) :
  NoDup (map doc_oid (deviceaction d)) ->
  fst (poll_all (Some d) calls)
  = answers_in_order (filter is_pending (deviceaction d)) calls.
Proof.
  revert d. induction calls as [|[device_id now] calls IH]; intros d Hnd;
    [reflexivity|].
  cbn [poll_all answers_in_order].
  destruct (poll_step d device_id now Hnd) as [d' [E [Hnd' Hp]]].
  rewrite E. specialize (IH d' Hnd'). rewrite Hp in IH.
  destruct (poll_all (Some d') calls) as [rs db2]; cbn [fst] in *.
  rewrite IH. now destruct (filter is_pending (deviceaction d)).
Qed.

Lemma polls_answer_in_collection_order_witness :
  NoDup (map doc_oid (deviceaction two_enqueued))
  /\ map (option_map (fun a => (da_id a, da_target a, da_device_id a)))
       (fst (poll_all (Some two_enqueued)
               [(Some "phone", 1%Z); (Some "tablet", 2%Z); (Some "phone", 3%Z)]))
     = [Some ("u1", "camera", Some "phone");
        Some ("u2", "wifi", Some "tablet");
        None].
Proof.
  assert (H : NoDup (map doc_oid (deviceaction two_enqueued))).
  { repeat constructor; simpl; intuition discriminate. }
  split; [exact H|].
  rewrite (polls_answer_in_collection_order two_enqueued _ H). reflexivity.
Defined.

Lemma poll_all_nothing_pending (calls : list (option string * Z)) :
  forall d : Database,
    NoDup (map doc_oid (deviceaction d)) ->
    filter is_pending (deviceaction d) = [] ->
    fst (poll_all (Some d) calls) = map (fun _ => None) calls.
Proof.
  induction calls as [|[device_id now] calls IH]; intros d Hnd Hp;
    [reflexivity|].
  cbn [poll_all map].
  destruct (poll_step d device_id now Hnd) as [d' [E [Hnd' Hp']]].
  rewrite E, Hp. rewrite Hp in Hp'. specialize (IH d' Hnd' Hp').
  destruct (poll_all (Some d') calls); cbn [fst] in *. now rewrite IH.
Qed.

(** With a single pending document, polls that do not overlap give it to the
    first caller only. *)
Lemma one_pending_polled_in_turn (d : Database) (p : Doc)
    (device_id : option string) (now : Z) (calls : list (option string * Z)) :
  NoDup (map doc_oid (deviceaction d)) ->
  filter is_pending (deviceaction d) = [p] ->
  fst (poll_all (Some d) ((device_id, now) :: calls))
  = Some (reserved_view device_id p) :: map (fun _ => None) calls.
Proof.
  intros Hnd Hp. cbn [poll_all].
  destruct (poll_step d device_id now Hnd) as [d' [E [Hnd' Hp']]].
  rewrite E, Hp. rewrite Hp in Hp'.
  pose proof (poll_all_nothing_pending calls d' Hnd' Hp') as H.
  destruct (poll_all (Some d') calls); cbn [fst] in *. now rewrite H.
Qed.

(** A poll that makes its two moves back to back is [get_next_action]. *)
Lemma move_twice (db : option Database) (device_id : option string) (now : Z) :
  let st1 := move db (mkPoll device_id now AtFind) in
  let st2 := move (fst st1) (snd st1) in
  poll_at (snd st2) = Done (fst (get_next_action db device_id now))
  /\ fst st2 = snd (get_next_action db device_id now).
Proof.
  unfold move, get_next_action. destruct db as [d|]; cbn; [|split; reflexivity].
  destruct (find_one is_pending (deviceaction d)); cbn; split; reflexivity.
Qed.

(** Whatever the queue holds, two polls that both run [find_one] before
    either runs [update_one] are both answered with the first pending
    document. *)
Lemma overlapping_polls_same_document (d : Database) (p : Doc)
    (dev1 dev2 : option string) (t1 t2 : Z) :
  find_one is_pending (deviceaction d) = Some p ->
  answers (snd (run_schedule [0; 1; 0; 1]
                  (Some d, [mkPoll dev1 t1 AtFind; mkPoll dev2 t2 AtFind])))
  = [Some (Some (reserved_view dev1 p)); Some (Some (reserved_view dev2 p))].
Proof.
  intros H. unfold run_schedule, sched_step, move.
  cbn. rewrite H. cbn. rewrite H. reflexivity.
Qed.

(** C1, at the schedule where the code departs from it: two polls against
    one pending action, both running [find_one] before either runs
    [update_one]. Both are answered with the action [a1] as reserved, one for
    each device, and the stored document ends up reserved for the second. *)
Theorem overlapping_polls_both_reserve :
  map (fun d => (da_id (doc_body d), da_status (doc_body d)))
    (docs one_pending) = [("a1", pending)]
  /\ answers (snd (run_schedule [0; 1; 0; 1] (one_pending, two_polls)))
     = [Some (Some (mkDeviceAction "a1" k_open_app "camera" (Some "open") None
                      reserved (Some "phone") None));
        Some (Some (mkDeviceAction "a1" k_open_app "camera" (Some "open") None
                      reserved (Some "tablet") None))]
  /\ map (fun d => (da_id (doc_body d), da_status (doc_body d),
                    da_device_id (doc_body d)))
       (docs (fst (run_schedule [0; 1; 0; 1] (one_pending, two_polls))))
     = [("a1", reserved, Some "tablet")].
Proof. repeat split. Qed.

(** The same two polls, the first finishing before the second starts. *)
Example polls_in_turn_reserve_once :
  answers (snd (run_schedule [0; 0; 1; 1] (one_pending, two_polls)))
  = [Some (Some (mkDeviceAction "a1" k_open_app "camera" (Some "open") None
                   reserved (Some "phone") None));
     Some None].
Proof. reflexivity. Qed.

(* ------------------------------------------------------------------ *)
(** ** What the queue operations leave alone *)

Lemma move_keeps_fixed_fields (db : option Database) (q : Poll) :
  map kept_by_claim (docs (fst (move db q))) = map kept_by_claim (docs db).
Proof.
  unfold move. destruct (poll_at q) as [|p|r], db as [d|]; try reflexivity.
  - destruct (find_one is_pending (deviceaction d)); reflexivity.
  - cbn [fst docs deviceaction with_deviceaction].
    apply update_one_map. reflexivity.
Qed.

(** C8: in every document of the queue, a poll leaves [_id], [id], [kind],
    [target], [action], [value] and [result] as they were, and a completion
    leaves [_id], [id], [kind], [target], [action], [value] and [device_id] as
    they were; neither adds or removes a document. *)
Theorem queue_operations_keep_fixed_fields (db : option Database)
    (device_id : option string) (action_id : string)
    (payload : CompleteActionRequest) (now : Z) :
  map kept_by_claim (docs (snd (get_next_action db device_id now)))
  = map kept_by_claim (docs db)
  /\ map kept_by_complete (docs (snd (complete_action db action_id payload now)))
     = map kept_by_complete (docs db).
Proof.
  split.
  - destruct db as [d|]; [|reflexivity]. unfold get_next_action.
    destruct (find_one is_pending (deviceaction d)); [|reflexivity].
    cbn [snd docs deviceaction with_deviceaction].
    apply update_one_map. reflexivity.
  - destruct db as [d|]; [|reflexivity]. rewrite complete_action_unfold.
    cbn [snd docs deviceaction with_deviceaction].
    apply update_one_map. reflexivity.
Qed.

(* ------------------------------------------------------------------ *)
(** ** Enqueueing *)

Local Open Scope list_scope.

Lemma create_interaction_deviceaction (db : Database) (oid1 oid2 uuid : string)
    (item : Interaction) :
  deviceaction (snd (create_interaction db oid1 oid2 uuid item))
  = deviceaction db
    ++ match to_action uuid (it_intent item) with
       | Some a => [mkDoc oid2 a None]
       | None => []
       end.
Proof.
  unfold create_interaction; simpl.
  destruct (to_action uuid (it_intent item)); simpl;
    [reflexivity | now rewrite app_nil_r].
Qed.

Lemma app_eq_self_nil {A : Type} (l l' : list A) : l ++ l' = l -> l' = [].
Proof.
  intros H. apply (f_equal (@length A)) in H. rewrite length_app in H.
  destruct l'; [reflexivity | simpl in H; lia].
Qed.

(** A minted id that no queued action carries keeps the ids distinct. *)
Lemma create_interaction_ids_distinct (db : Database) (oid1 oid2 uuid : string)
    (item : Interaction) :
  NoDup (map (fun d => da_id (doc_body d)) (deviceaction db)) ->
  ~ In uuid (map (fun d => da_id (doc_body d)) (deviceaction db)) ->
  NoDup (map (fun d => da_id (doc_body d))
           (deviceaction (snd (create_interaction db oid1 oid2 uuid item)))).
Proof.
  intros Hnd Hfresh. rewrite create_interaction_deviceaction, map_app.
  destruct (it_intent item) as [i|]; simpl; [|now rewrite app_nil_r].
  destruct (i_type i); simpl; try now rewrite app_nil_r.
  all: apply NoDup_app; [exact Hnd | repeat constructor; simpl; tauto |];
    intros a Ha [<-|[]]; contradiction.
Qed.

(** C6 as written fails: an [open_app] intent that carries an action other
    than [open] and a value is enqueued with action [open] and no value. *)
Lemma open_app_action_not_copied :
  let i := mkIntent open_app (Some "camera") (Some "start") (Some (AInt 7))
             None in
  exists a,
    deviceaction (snd (create_interaction empty_db "i1" "o1" "u1"
                         (mkInteraction user "start the camera" (Some i))))
    = [mkDoc "o1" a None]
    /\ da_action a <> i_action i
    /\ da_value a <> i_value i.
Proof.
  cbv zeta. eexists. split; [reflexivity|]. split; discriminate.
Qed.

(** C6, amended: nothing is enqueued exactly when the intent is absent or
    [unknown]. For any other intent exactly one document is appended: it is
    pending, unclaimed and without result, carries the minted id, the intent's
    target (the empty string for a null target), the action [open] for
    [open_app] and the intent's action otherwise, and the intent's value for
    [adjust_setting] and no value otherwise. *)
Theorem create_interaction_enqueues (db : Database) (oid1 oid2 uuid : string)
    (item : Interaction) :
  let db' := snd (create_interaction db oid1 oid2 uuid item) in
  (deviceaction db' = deviceaction db
   <-> it_intent item = None
       \/ exists i, it_intent item = Some i /\ i_type i = unknown)
  /\ (forall i, it_intent item = Some i -> i_type i <> unknown ->
      exists a,
        deviceaction db' = deviceaction db ++ [mkDoc oid2 a None]
        /\ da_status a = pending
        /\ da_id a = uuid
        /\ da_device_id a = None
        /\ da_result a = None
        /\ da_target a = or_empty (i_target i)
        /\ da_action a = match i_type i with
                         | open_app => Some "open"
                         | _ => i_action i
                         end
        /\ da_value a = match i_type i with
                        | adjust_setting => i_value i
                        | _ => None
                        end).
Proof.
  cbv zeta. rewrite create_interaction_deviceaction. split.
  - split.
    + intros H. apply app_eq_self_nil in H.
      destruct (it_intent item) as [i|]; [right|now left].
      exists i. split; [reflexivity|].
      simpl in H. destruct (i_type i); try discriminate; reflexivity.
    + intros [-> | [i [-> Hu]]]; simpl; [|rewrite Hu]; now rewrite app_nil_r.
  - intros i -> Hu. simpl.
    destruct (i_type i) eqn:Ht; try (now elim Hu);
      eexists; (split; [reflexivity|]); repeat split.
Qed.

Lemma create_interaction_enqueues_witness :
  intent_of "turn on wifi"
  = Some (mkIntent toggle_setting (Some "wifi") (Some "on") None
            (Some "turn on wifi"))
  /\ exists a,
      deviceaction (snd (create_interaction empty_db "i1" "o1" "u1"
                           (mkInteraction user "turn on wifi"
                              (intent_of "turn on wifi"))))
      = [mkDoc "o1" a None]
      /\ da_status a = pending /\ da_id a = "u1" /\ da_target a = "wifi"
      /\ da_action a = Some "on" /\ da_value a = None.
Proof.
  split; [reflexivity|].
  destruct (proj2 (create_interaction_enqueues empty_db "i1" "o1" "u1"
                     (mkInteraction user "turn on wifi"
                        (intent_of "turn on wifi")))
              (mkIntent toggle_setting (Some "wifi") (Some "on") None
                 (Some "turn on wifi")) eq_refl)
    as [a [E [Hs [Hi [_ [_ [Ht [Ha Hv]]]]]]]]; [discriminate|].
  exists a. auto 10.
Defined.

(** C10: an actionable intent without target is enqueued all the same, and
    the target of the queued action is the empty string. *)
Theorem null_target_enqueued_as_empty (db : Database) (oid1 oid2 uuid : string)
    (role : Role) (text : string) (i : Intent) :
  i_type i <> unknown ->
  i_target i = None ->
  exists a,
    create_interaction db oid1 oid2 uuid (mkInteraction role text (Some i))
    = (oid1,
       {| interaction :=
            interaction db ++ [(oid1, mkInteraction role text (Some i))];
          deviceaction := deviceaction db ++ [mkDoc oid2 a None] |})
    /\ da_target a = ""
    /\ da_status a = pending.
Proof.
  intros Hu Ht. unfold create_interaction; simpl.
  destruct (i_type i); try (now elim Hu); rewrite Ht;
    eexists; (split; [reflexivity|]); split; reflexivity.
Qed.

Lemma null_target_enqueued_as_empty_witness :
  exists a,
    create_interaction empty_db "i1" "o1" "u1"
      (mkInteraction user "louder"
         (Some (mkIntent adjust_setting None (Some "increase") None None)))
    = ("i1",
       {| interaction :=
            [("i1", mkInteraction user "louder"
                      (Some (mkIntent adjust_setting None (Some "increase")
                               None None)))];
          deviceaction := [mkDoc "o1" a None] |})
    /\ da_target a = ""
    /\ da_status a = pending.
Proof.
  apply (null_target_enqueued_as_empty empty_db "i1" "o1" "u1" user "louder"
           (mkIntent adjust_setting None (Some "increase") None None));
    [discriminate | reflexivity].
Defined.
(* ------------------------------------------------------------------ *)
(** ** The normalizer *)

Lemma append_nil_r (s : string) : (s ++ "")%string = s.
Proof. induction s as [|c s IH]; simpl; [|rewrite IH]; reflexivity. Qed.

Lemma append_assoc (a b c : string) :
  ((a ++ b) ++ c)%string = (a ++ (b ++ c))%string.
Proof. induction a as [|x a IH]; simpl; [|rewrite IH]; reflexivity. Qed.

Lemma all_chars_app (p : ascii -> bool) (a b : string) :
  all_chars p (a ++ b)%string = all_chars p a && all_chars p b.
Proof.
  induction a as [|c a IH]; simpl; [reflexivity|].
  now rewrite IH, andb_assoc.
Qed.

Lemma all_chars_impl (p q : ascii -> bool) (s : string) :
  (forall c, p c = true -> q c = true) ->
  all_chars p s = true -> all_chars q s = true.
Proof.
  intros Hpq. induction s as [|c s IH]; simpl; [reflexivity|].
  intros H. apply andb_true_iff in H as [Hc Hs].
  now rewrite (Hpq c Hc), (IH Hs).
Qed.

Lemma lower_char_idempotent (c : ascii) :
  Str.lower_char (Str.lower_char c) = Str.lower_char c.
Proof.
  destruct c as [[] [] [] [] [] [] [] []]; reflexivity.
Qed.

Lemma is_space_lower_char (c : ascii) :
  Str.is_space (Str.lower_char c) = Str.is_space c.
Proof.
  destruct c as [[] [] [] [] [] [] [] []]; reflexivity.
Qed.

Lemma all_chars_lower (s : string) : all_chars is_lowered (Str.lower s) = true.
Proof.
  induction s as [|c s IH]; simpl; [reflexivity|].
  unfold is_lowered at 1.
  now rewrite lower_char_idempotent, Ascii.eqb_refl, IH.
Qed.

Lemma lower_fixed (s : string) :
  all_chars is_lowered s = true -> Str.lower s = s.
Proof.
  induction s as [|c s IH]; simpl; [reflexivity|].
  intros H. apply andb_true_iff in H as [Hc Hs].
  apply Ascii.eqb_eq in Hc. now rewrite Hc, (IH Hs).
Qed.

Lemma all_space_lower (s : string) :
  all_chars Str.is_space (Str.lower s) = all_chars Str.is_space s.
Proof.
  induction s as [|c s IH]; simpl; [reflexivity|].
  now rewrite is_space_lower_char, IH.
Qed.

(** *** Reversal *)

Lemma rev_onto_app (a b acc : string) :
  Str.rev_onto (a ++ b)%string acc = Str.rev_onto b (Str.rev_onto a acc).
Proof.
  revert acc; induction a as [|c a IH]; intros acc; simpl; [reflexivity|].
  apply IH.
Qed.

Lemma rev_onto_acc (s acc : string) :
  Str.rev_onto s acc = (Str.rev s ++ acc)%string.
Proof.
  unfold Str.rev. revert acc; induction s as [|c s IH]; intros acc; simpl;
    [reflexivity|].
  rewrite (IH (String c acc)), (IH (String c "")), append_assoc. reflexivity.
Qed.

Lemma rev_app (a b : string) :
  Str.rev (a ++ b)%string = (Str.rev b ++ Str.rev a)%string.
Proof. unfold Str.rev at 1. now rewrite rev_onto_app, rev_onto_acc. Qed.

Lemma rev_onto_twice (s a b : string) :
  Str.rev_onto (Str.rev_onto s a) b = Str.rev_onto a (s ++ b)%string.
Proof.
  revert a b; induction s as [|c s IH]; intros a b; simpl; [reflexivity|].
  now rewrite IH.
Qed.

Lemma rev_involutive (s : string) : Str.rev (Str.rev s) = s.
Proof. unfold Str.rev. rewrite rev_onto_twice. simpl. apply append_nil_r. Qed.

Lemma all_chars_rev_onto (p : ascii -> bool) (s acc : string) :
  all_chars p (Str.rev_onto s acc) = all_chars p s && all_chars p acc.
Proof.
  revert acc; induction s as [|c s IH]; intros acc; simpl; [reflexivity|].
  rewrite IH. simpl.
  destruct (p c), (all_chars p s), (all_chars p acc); reflexivity.
Qed.

Lemma all_chars_rev (p : ascii -> bool) (s : string) :
  all_chars p (Str.rev s) = all_chars p s.
Proof. unfold Str.rev. rewrite all_chars_rev_onto. simpl. apply andb_true_r. Qed.

(** *** Stripping *)

Lemma lstrip_decomp (s : string) :
  exists sp, s = (sp ++ Str.lstrip s)%string /\ all_chars Str.is_space sp = true.
Proof.
  induction s as [|c s [sp [E Hsp]]]; simpl.
  - exists ""%string. split; reflexivity.
  - destruct (Str.is_space c) eqn:Hc.
    + exists (String c sp). simpl. rewrite Hc, Hsp. split; [now rewrite <- E | reflexivity].
    + exists ""%string. split; reflexivity.
Qed.

Lemma lstrip_nonspace (s : string) :
  starts_nonspace s = true -> Str.lstrip s = s.
Proof.
  destruct s as [|c s]; simpl; [discriminate|].
  unfold not_space. now destruct (Str.is_space c).
Qed.

Lemma strip_decomp (s : string) :
  exists sp1 sp2,
    s = (sp1 ++ Str.strip s ++ sp2)%string
    /\ all_chars Str.is_space sp1 = true
    /\ all_chars Str.is_space sp2 = true.
Proof.
  destruct (lstrip_decomp s) as [sp1 [E1 H1]].
  destruct (lstrip_decomp (Str.rev (Str.lstrip s))) as [sp [E2 H2]].
  exists sp1, (Str.rev sp). repeat split; [|exact H1|now rewrite all_chars_rev].
  unfold Str.strip. rewrite <- rev_app, <- E2, rev_involutive. exact E1.
Qed.

(** *** Splitting and joining *)

Lemma split_from_end (w : string) : Str.split_from w "" = flush w [].
Proof. reflexivity. Qed.

Lemma split_from_spaces (sp w : string) :
  all_chars Str.is_space sp = true -> Str.split_from w sp = flush w [].
Proof.
  revert w; induction sp as [|c sp IH]; intros w H; [reflexivity|].
  simpl in H. apply andb_true_iff in H as [Hc Hsp].
  simpl. rewrite Hc, (IH ""%string Hsp). unfold flush. simpl.
  destruct (Str.is_empty w); reflexivity.
Qed.

Lemma split_from_app_spaces (s sp w : string) :
  all_chars Str.is_space sp = true ->
  Str.split_from w (s ++ sp)%string = Str.split_from w s.
Proof.
  intros Hsp. revert w; induction s as [|c s IH]; intros w; simpl.
  - now rewrite split_from_spaces.
  - now rewrite !IH.
Qed.

Lemma split_from_spaces_app (sp s : string) :
  all_chars Str.is_space sp = true ->
  Str.split_from "" (sp ++ s)%string = Str.split_from "" s.
Proof.
  induction sp as [|c sp IH]; simpl; [reflexivity|].
  intros H. apply andb_true_iff in H as [Hc Hsp]. now rewrite Hc, IH.
Qed.

Lemma split_from_app_word (u s w : string) :
  all_chars not_space u = true ->
  Str.split_from w (u ++ s)%string = Str.split_from (w ++ u)%string s.
Proof.
  revert w; induction u as [|c u IH]; intros w H; simpl.
  - now rewrite append_nil_r.
  - simpl in H. apply andb_true_iff in H as [Hc Hu].
    unfold not_space in Hc. apply negb_true_iff in Hc. rewrite Hc.
    rewrite (IH _ Hu), append_assoc. reflexivity.
Qed.

(** stripping does not change what [split] sees *)
Lemma split_strip (s : string) : Str.split (Str.strip s) = Str.split s.
Proof.
  destruct (strip_decomp s) as [sp1 [sp2 [E [H1 H2]]]].
  unfold Str.split. rewrite E at 2.
  now rewrite split_from_spaces_app, split_from_app_spaces.
Qed.

Lemma normalize_split (text : string) :
  normalize text = Str.join " " (Str.split (Str.lower text)).
Proof. unfold normalize. now rewrite split_strip. Qed.

Lemma is_empty_app (a b : string) :
  Str.is_empty (a ++ b)%string = Str.is_empty a && Str.is_empty b.
Proof. destruct a; reflexivity. Qed.

Lemma is_empty_eq (s : string) : Str.is_empty s = true <-> s = ""%string.
Proof. destruct s; simpl; split; congruence. Qed.

(** every piece that [split] gives is a word, and inherits what holds of
    every character of the text *)
Lemma split_from_words (p : ascii -> bool) (s w : string) :
  all_chars not_space w = true -> all_chars p w = true ->
  all_chars p s = true ->
  Forall (fun u => is_word u = true /\ all_chars p u = true)
    (Str.split_from w s).
Proof.
  revert w; induction s as [|c s IH]; intros w Hw Hpw Hs; simpl.
  - destruct (Str.is_empty w) eqn:He; constructor; [|constructor].
    unfold is_word. now rewrite He, Hw.
  - simpl in Hs. apply andb_true_iff in Hs as [Hc Hs].
    destruct (Str.is_space c) eqn:Hsp.
    + destruct (Str.is_empty w) eqn:He; [now apply IH|].
      constructor; [|now apply IH]. unfold is_word. now rewrite He, Hw.
    + apply IH; [| |exact Hs]; rewrite all_chars_app; simpl.
      * unfold not_space at 2. now rewrite Hw, Hsp.
      * now rewrite Hpw, Hc.
Qed.

Lemma split_words (p : ascii -> bool) (s : string) :
  all_chars p s = true ->
  Forall (fun u => is_word u = true /\ all_chars p u = true) (Str.split s).
Proof. intros H. now apply split_from_words. Qed.

Lemma split_join (ws : list string) :
  Forall (fun u => is_word u = true) ws ->
  Str.split (Str.join " " ws) = ws.
Proof.
  unfold Str.split. induction ws as [|w ws IH]; intros H; [reflexivity|].
  inversion H as [|? ? Hw Hws]; subst.
  unfold is_word in Hw. apply andb_true_iff in Hw as [Hne Hns].
  apply negb_true_iff in Hne.
  destruct ws as [|w2 ws].
  - simpl. rewrite <- (append_nil_r w) at 1.
    rewrite split_from_app_word by exact Hns. simpl. now rewrite Hne.
  - change (Str.join " " (w :: w2 :: ws))
      with (w ++ " " ++ Str.join " " (w2 :: ws))%string.
    rewrite split_from_app_word by exact Hns.
    change (Str.split_from ("" ++ w) (" " ++ Str.join " " (w2 :: ws)))%string
      with (if Str.is_empty w then Str.split_from "" (Str.join " " (w2 :: ws))
            else w :: Str.split_from "" (Str.join " " (w2 :: ws))).
    now rewrite Hne, (IH Hws).
Qed.

Lemma all_chars_join (p : ascii -> bool) (ws : list string) :
  p " "%char = true ->
  Forall (fun u => all_chars p u = true) ws ->
  all_chars p (Str.join " " ws) = true.
Proof.
  intros Hsp. induction ws as [|w ws IH]; intros H; [reflexivity|].
  inversion H as [|? ? Hw Hws]; subst.
  destruct ws as [|w2 ws]; [exact Hw|].
  change (Str.join " " (w :: w2 :: ws))
    with (w ++ " " ++ Str.join " " (w2 :: ws))%string.
  rewrite !all_chars_app, Hw, (IH Hws). simpl. now rewrite Hsp.
Qed.

Lemma join_nonempty (w : string) (ws : list string) :
  is_word w = true -> starts_nonspace (Str.join " " (w :: ws)) = true.
Proof.
  unfold is_word. intros H. apply andb_true_iff in H as [Hne Hns].
  destruct w as [|c w]; [discriminate|].
  simpl in Hns. apply andb_true_iff in Hns as [Hc _].
  destruct ws; simpl; exact Hc.
Qed.

Lemma starts_nonspace_app (a b : string) :
  starts_nonspace a = true -> starts_nonspace (a ++ b)%string = true.
Proof. destruct a; simpl; [discriminate | trivial]. Qed.

Lemma rev_join_nonempty (ws : list string) (w : string) :
  Forall (fun u => is_word u = true) (w :: ws) ->
  starts_nonspace (Str.rev (Str.join " " (w :: ws))) = true.
Proof.
  revert w; induction ws as [|w2 ws IH]; intros w H;
    inversion H as [|? ? Hw Hws]; subst.
  - simpl Str.join. unfold is_word in Hw. apply andb_true_iff in Hw as [Hne Hns].
    rewrite <- (all_chars_rev not_space) in Hns.
    destruct (Str.rev w) as [|c r] eqn:E.
    + apply (f_equal Str.rev) in E. rewrite rev_involutive in E. subst.
      discriminate.
    + simpl in *. now apply andb_true_iff in Hns as [Hc _].
  - change (Str.join " " (w :: w2 :: ws))
      with (w ++ " " ++ Str.join " " (w2 :: ws))%string.
    rewrite !rev_app, append_assoc. apply starts_nonspace_app. now apply IH.
Qed.

Lemma strip_join (ws : list string) :
  Forall (fun u => is_word u = true) ws ->
  Str.strip (Str.join " " ws) = Str.join " " ws.
Proof.
  intros H. destruct ws as [|w ws]; [reflexivity|].
  inversion H as [|? ? Hw Hws]; subst.
  unfold Str.strip.
  rewrite (lstrip_nonspace _ (join_nonempty w ws Hw)).
  rewrite (lstrip_nonspace _ (rev_join_nonempty ws w H)).
  apply rev_involutive.
Qed.

Lemma prefix_double_space (c : ascii) (s : string) :
  not_space c = true -> String.prefix "  " (String c s) = false.
Proof.
  intros H. cbn [String.prefix].
  destruct (ascii_dec " " c) as [<-|]; [discriminate H | reflexivity].
Qed.

Lemma prefix_double_space_next (d : ascii) (s : string) :
  not_space d = true -> String.prefix "  " (String " " (String d s)) = false.
Proof.
  intros H. cbn [String.prefix].
  destruct (ascii_dec " " " "); [|reflexivity].
  destruct (ascii_dec " " d) as [<-|]; [discriminate H | reflexivity].
Qed.

Lemma double_space_join (ws : list string) :
  Forall (fun u => is_word u = true) ws ->
  Str.contains "  " (Str.join " " ws) = false.
Proof.
  induction ws as [|w ws IH]; intros H; [reflexivity|].
  inversion H as [|? ? Hw Hws]; subst. specialize (IH Hws).
  assert (Hword : forall u r : string,
             all_chars not_space u = true ->
             starts_nonspace r = true -> Str.contains "  " r = false ->
             Str.contains "  " (u ++ " " ++ r)%string = false).
  { intros u r Hu Hr Hc. induction u as [|c u IHu].
    - destruct r as [|d r]; [discriminate|]. simpl in Hr.
      change (Str.contains "  " ("" ++ " " ++ String d r)%string)
        with (String.prefix "  " (String " " (String d r))
              || Str.contains "  " (String d r)).
      rewrite Hc, orb_false_r. now apply prefix_double_space_next.
    - simpl in Hu. apply andb_true_iff in Hu as [Hcc Hu].
      change (Str.contains "  " (String c u ++ " " ++ r)%string)
        with (String.prefix "  " (String c (u ++ " " ++ r)%string)
              || Str.contains "  " (u ++ " " ++ r)%string).
      rewrite (IHu Hu), orb_false_r. now apply prefix_double_space. }
  assert (Hone : forall u : string,
             all_chars not_space u = true -> Str.contains "  " u = false).
  { intros u Hu. induction u as [|c u IHu]; [reflexivity|].
    simpl in Hu. apply andb_true_iff in Hu as [Hcc Hu].
    change (Str.contains "  " (String c u))
      with (String.prefix "  " (String c u) || Str.contains "  " u).
    rewrite (IHu Hu), orb_false_r. now apply prefix_double_space. }
  unfold is_word in Hw. apply andb_true_iff in Hw as [_ Hns].
  destruct ws as [|w2 ws]; [now apply Hone|].
  change (Str.join " " (w :: w2 :: ws))
    with (w ++ " " ++ Str.join " " (w2 :: ws))%string.
  apply Hword; [exact Hns | | exact IH].
  inversion Hws; subst. now apply join_nonempty.
Qed.

Lemma split_from_nil (s w : string) :
  Str.split_from w s = [] <->
  w = ""%string /\ all_chars Str.is_space s = true.
Proof.
  revert w; induction s as [|c s IH]; intros w; simpl.
  - destruct w; simpl; split; try tauto; try discriminate.
    intros [? _]; discriminate.
  - destruct (Str.is_space c) eqn:Hc; simpl.
    + destruct w as [|d w]; simpl.
      * rewrite IH. tauto.
      * split; [discriminate | intros [? _]; discriminate].
    + rewrite IH. split; [intros [E _]|intros [_ E]; discriminate].
      destruct w; discriminate.
Qed.

Lemma join_empty (ws : list string) :
  Forall (fun u => is_word u = true) ws ->
  Str.join " " ws = ""%string -> ws = [].
Proof.
  intros H E. destruct ws as [|w ws]; [reflexivity|].
  inversion H as [|? ? Hw Hws]; subst.
  pose proof (join_nonempty w ws Hw) as Hn. rewrite E in Hn. discriminate.
Qed.

Lemma Forall_fst {A : Type} (P Q : A -> Prop) (l : list A) :
  Forall (fun x => P x /\ Q x) l -> Forall P l /\ Forall Q l.
Proof.
  induction 1 as [|x l [Hp Hq] _ [IHp IHq]]; split; constructor; assumption.
Qed.

(** The words of a normalized text. *)
Lemma normalize_words (text : string) :
  Forall (fun u => is_word u = true) (Str.split (Str.lower text))
  /\ Forall (fun u => all_chars is_lowered u = true)
       (Str.split (Str.lower text)).
Proof. apply Forall_fst, split_words, all_chars_lower. Qed.

Lemma lower_app (a b : string) :
  Str.lower (a ++ b)%string = (Str.lower a ++ Str.lower b)%string.
Proof. induction a as [|c a IH]; simpl; [|rewrite IH]; reflexivity. Qed.

Lemma word_plain_space_only (u : string) :
  is_word u = true -> all_chars plain_space_only u = true.
Proof.
  unfold is_word. intros H. apply andb_true_iff in H as [_ H].
  revert H. apply all_chars_impl. intros c Hc. unfold plain_space_only.
  now rewrite Hc.
Qed.

(** X1: normalizing twice is normalizing once. *)
Theorem normalize_idempotent (text : string) :
  normalize (normalize text) = normalize text.
Proof.
  destruct (normalize_words text) as [Hw Hl].
  rewrite (normalize_split (normalize text)), (normalize_split text).
  rewrite lower_fixed by (apply all_chars_join; [reflexivity | exact Hl]).
  now rewrite split_join.
Qed.

(** X2: a normalized text is in canonical form: stripping or lower-casing it
    changes nothing, it has no two spaces in a row, and the only white space
    left in it is the plain space. *)
Theorem normalize_canonical (text : string) :
  Str.strip (normalize text) = normalize text
  /\ Str.lower (normalize text) = normalize text
  /\ Str.contains "  " (normalize text) = false
  /\ all_chars plain_space_only (normalize text) = true.
Proof.
  destruct (normalize_words text) as [Hw Hl]. rewrite normalize_split.
  split; [now apply strip_join|].
  split; [apply lower_fixed, all_chars_join; [reflexivity | exact Hl]|].
  split; [now apply double_space_join|].
  apply all_chars_join; [reflexivity|].
  revert Hw. apply Forall_impl. exact word_plain_space_only.
Qed.

(** X3: the normalized text is empty exactly when the input is made of
    white space only (the empty input included). *)
Theorem normalize_empty_iff (text : string) :
  normalize text = ""%string <-> all_chars Str.is_space text = true.
Proof.
  destruct (normalize_words text) as [Hw _]. rewrite normalize_split.
  rewrite <- all_space_lower. split.
  - intros E. apply (join_empty _ Hw) in E.
    now apply (split_from_nil (Str.lower text) ""%string) in E as [_ E].
  - intros H.
    assert (E : Str.split (Str.lower text) = [])
      by (apply split_from_nil; split; [reflexivity | exact H]).
    now rewrite E.
Qed.

(** X4: white space around the input, and the case of its letters, do not
    change the normalized text. *)
Theorem normalize_ignores_padding_and_case (sp1 sp2 text : string) :
  all_chars Str.is_space sp1 = true ->
  all_chars Str.is_space sp2 = true ->
  normalize (sp1 ++ text ++ sp2)%string = normalize text
  /\ normalize (Str.lower text) = normalize text.
Proof.
  intros H1 H2. rewrite !normalize_split. split.
  - rewrite !lower_app. unfold Str.split.
    rewrite split_from_spaces_app by (now rewrite all_space_lower).
    rewrite split_from_app_spaces by (now rewrite all_space_lower).
    reflexivity.
  - now rewrite (lower_fixed _ (all_chars_lower text)).
Qed.

Lemma normalize_ignores_padding_and_case_witness :
  all_chars Str.is_space "  " = true
  /\ all_chars Str.is_space " " = true
  /\ normalize ("  " ++ "Open  Camera" ++ " ")%string = normalize "Open  Camera"
  /\ normalize "Open  Camera" = "open camera"%string.
Proof.
  refine (conj eq_refl (conj eq_refl (conj _ eq_refl))).
  apply (normalize_ignores_padding_and_case "  " " " "Open  Camera");
    reflexivity.
Defined.

(* ------------------------------------------------------------------ *)
(** ** More on the classifier *)

Lemma normalize_join_fixed (ws : list string) :
  Forall (fun u => is_word u = true) ws ->
  Forall (fun u => all_chars is_lowered u = true) ws ->
  normalize (Str.join " " ws) = Str.join " " ws.
Proof.
  intros Hw Hl. rewrite normalize_split.
  rewrite lower_fixed by (apply all_chars_join; [reflexivity | exact Hl]).
  now rewrite split_join.
Qed.

Lemma adjust_tier_retext (raw t : string) (i : Intent) :
  adjust_tier t (retext raw i) = retext_outcome raw (adjust_tier t i).
Proof.
  unfold adjust_tier. destruct (any_in ADJUST_WORDS t); [|reflexivity].
  destruct (first_key (alias_in t) ADJUSTABLES); [|reflexivity].
  destruct (Str.search_percent t) as [ds|]; [|reflexivity].
  destruct (Str.int ds); reflexivity.
Qed.

Lemma toggle_off_tier_retext (raw t : string) (i : Intent) :
  toggle_off_tier t (retext raw i) = retext_outcome raw (toggle_off_tier t i).
Proof.
  unfold toggle_off_tier.
  destruct (any_in OFF_WORDS t); [|apply adjust_tier_retext].
  destruct (first_key (alias_in t) SETTINGS);
    [reflexivity | apply adjust_tier_retext].
Qed.

Lemma toggle_on_tier_retext (raw t : string) (i : Intent) :
  toggle_on_tier t (retext raw i) = retext_outcome raw (toggle_on_tier t i).
Proof.
  unfold toggle_on_tier.
  destruct (any_in ON_WORDS t); [|apply toggle_off_tier_retext].
  destruct (first_key (alias_in t) SETTINGS);
    [reflexivity | apply toggle_off_tier_retext].
Qed.

Lemma parse_intent_same_normal_form (a b : string) :
  normalize a = normalize b ->
  parse_intent b = retext_outcome b (parse_intent a).
Proof.
  intros E. unfold parse_intent. rewrite E.
  destruct (open_prefix (normalize b)).
  - destruct (nth_error _ 1); [|reflexivity].
    destruct (first_key _ COMMON_APPS); reflexivity.
  - change (mkIntent unknown None None None (Some b))
      with (retext b (mkIntent unknown None None None (Some a))).
    apply toggle_on_tier_retext.
Qed.

(** X5: the classifier sees the text only through its normal form: texts
    with the same normal form get the same intent, the kept original text
    aside; and classifying the normalized text is classifying the text. *)
Theorem parse_intent_by_normal_form (a b : string) :
  normalize a = normalize b ->
  parse_intent b = retext_outcome b (parse_intent a)
  /\ parse_intent (normalize a)
     = retext_outcome (normalize a) (parse_intent a).
Proof.
  intros E. split; [now apply parse_intent_same_normal_form|].
  apply parse_intent_same_normal_form.
  destruct (normalize_words a) as [Hw Hl].
  rewrite (normalize_split a). symmetry. now apply normalize_join_fixed.
Qed.

Lemma parse_intent_by_normal_form_witness :
  normalize "  TURN on   the Wi-Fi" = normalize "turn on the wi-fi"
  /\ parse_intent "turn on the wi-fi"
     = Returns (mkIntent toggle_setting (Some "wifi") (Some "on") None
                  (Some "turn on the wi-fi")).
Proof.
  split; [reflexivity|].
  rewrite (proj1 (parse_intent_by_normal_form "  TURN on   the Wi-Fi"
                    "turn on the wi-fi" eq_refl)).
  reflexivity.
Defined.

(** *** Shapes of the results *)

Lemma first_key_in (test : string -> list string -> bool)
    (table : list (string * list string)) (k : string) :
  first_key test table = Some k -> In k (keys table).
Proof.
  unfold first_key, keys. destruct (find _ table) as [row|] eqn:E;
    [|discriminate].
  intros [= <-]. apply find_some in E as [Hin _]. now apply in_map.
Qed.

Lemma span_digits_digits (s : string) :
  all_chars Str.is_digit (fst (Str.span_digits s)) = true.
Proof.
  induction s as [|c s IH]; simpl; [reflexivity|].
  destruct (Str.is_digit c) eqn:Hc; [|reflexivity].
  destruct (Str.span_digits s) as [ds r]; simpl in *. now rewrite Hc, IH.
Qed.

Lemma search_percent_digits (s ds : string) :
  Str.search_percent s = Some ds -> all_chars Str.is_digit ds = true.
Proof.
  induction s as [|c s IH]; [discriminate|].
  cbn [Str.search_percent].
  destruct (Str.is_digit c); [|exact IH].
  pose proof (span_digits_digits (String c s)) as Hd.
  destruct (Str.span_digits (String c s)) as [d r].
  destruct (Str.startswith r "%"); [|exact IH].
  now intros [= <-].
Qed.

Lemma digit_value (c : ascii) :
  Str.is_digit c = true -> (0 <= Z.of_N (Str.code c) - 48 <= 9)%Z.
Proof.
  unfold Str.is_digit. intros H. apply andb_true_iff in H as [H1 H2].
  apply N.leb_le in H1, H2. lia.
Qed.

Lemma int_of_digits_nonneg (ds : string) :
  all_chars Str.is_digit ds = true -> (0 <= Str.int_of_digits ds)%Z.
Proof.
  unfold Str.int_of_digits.
  assert (G : forall s acc, (0 <= acc)%Z -> all_chars Str.is_digit s = true ->
             (0 <= (fix go (acc : Z) (s : string) {struct s} : Z :=
                      match s with
                      | EmptyString => acc
                      | String c s' =>
                          go (10 * acc + (Z.of_N (Str.code c) - 48))%Z s'
                      end) acc s)%Z).
  { induction s as [|c s IH]; intros acc Hacc H; [exact Hacc|].
    simpl in H. apply andb_true_iff in H as [Hc Hs].
    apply IH; [|exact Hs]. pose proof (digit_value c Hc). lia. }
  apply G. lia.
Qed.

Lemma adjust_tier_shape (t text : string) (i : Intent) :
  adjust_tier t (blank text) = Returns i ->
  (i = blank text)
  \/ (i_type i = adjust_setting
      /\ i_target i = first_key (alias_in t) ADJUSTABLES
      /\ (exists k, i_target i = Some k /\ In k (keys ADJUSTABLES))
      /\ In (i_action i) [None; Some "increase"; Some "decrease"; Some "set"]
      /\ is_natural (i_value i)
      /\ any_in ADJUST_WORDS t = true).
Proof.
  unfold adjust_tier.
  destruct (any_in ADJUST_WORDS t); [|intros [= <-]; now left].
  destruct (first_key (alias_in t) ADJUSTABLES) as [k|] eqn:Hk;
    [|intros [= <-]; now left].
  assert (Ha : In (if any_in UP_WORDS t then Some "increase"%string
                   else if any_in DOWN_WORDS t then Some "decrease"%string
                   else if Str.startswith t "set " then Some "set"%string
                   else None)
                 [None; Some "increase"%string; Some "decrease"%string;
                  Some "set"%string]).
  { destruct (any_in UP_WORDS t); [simpl; tauto|].
    destruct (any_in DOWN_WORDS t); [simpl; tauto|].
    destruct (Str.startswith t "set "); simpl; tauto. }
  apply first_key_in in Hk.
  destruct (Str.search_percent t) as [ds|] eqn:Hs.
  - destruct (Str.int ds) as [z|e] eqn:Hz; [|discriminate].
    intros [= <-]. right.
    cbn [set_intent i_type i_target i_action i_value].
    split; [reflexivity|]. split; [reflexivity|].
    split; [exists k; now split|]. split; [exact Ha|].
    split; [|reflexivity]. cbn [is_natural].
    rewrite (int_returns _ _ Hz). apply int_of_digits_nonneg.
    now apply search_percent_digits in Hs.
  - intros [= <-]. right.
    cbn [set_intent i_type i_target i_action i_value].
    split; [reflexivity|]. split; [reflexivity|].
    split; [exists k; now split|]. split; [exact Ha|].
    split; [exact I | reflexivity].
Qed.

Lemma toggle_tiers_shape (t text : string) (i : Intent) :
  toggle_on_tier t (blank text) = Returns i ->
  adjust_tier t (blank text) = Returns i
  \/ (i_type i = toggle_setting
      /\ (exists k, i_target i = Some k /\ In k (keys SETTINGS))
      /\ (i_action i = Some "on"%string \/ i_action i = Some "off"%string)
      /\ i_value i = None).
Proof.
  unfold toggle_on_tier, toggle_off_tier.
  destruct (first_key (alias_in t) SETTINGS) as [k|] eqn:Hk.
  - apply first_key_in in Hk.
    destruct (any_in ON_WORDS t); [intros [= <-]; right; simpl; eauto 8|].
    destruct (any_in OFF_WORDS t);
      [intros [= <-]; right; simpl; eauto 8 | now left].
  - destruct (any_in ON_WORDS t), (any_in OFF_WORDS t); now left.
Qed.

Lemma normalized_open_rest (text r : string) :
  normalize text = ("open " ++ r)%string
  \/ normalize text = ("launch " ++ r)%string ->
  r <> ""%string.
Proof.
  intros H ->. destruct (normalize_words text) as [Hw _].
  pose proof (strip_join _ Hw) as Hs. rewrite <- normalize_split in Hs.
  destruct H as [E|E]; rewrite E in Hs; discriminate Hs.
Qed.

Lemma keys_nonempty (k : string) :
  In k (keys COMMON_APPS) -> k <> ""%string.
Proof. simpl. intuition (subst; discriminate). Qed.

(** X6: every intent the classifier returns is well shaped for its type: an
    [open_app] has a non-empty target, action [open] and no value; a
    [toggle_setting] has a key of [SETTINGS], action [on] or [off] and no
    value; an [adjust_setting] has a key of [ADJUSTABLES], an action among
    [increase], [decrease], [set] or none, and a value that is absent or a
    natural number; an [unknown] has no target, action or value. *)
Theorem parse_intent_well_shaped (text : string) (i : Intent) :
  parse_intent text = Returns i -> well_shaped i.
Proof.
  unfold parse_intent.
  destruct (open_prefix (normalize text)) eqn:Hp.
  - destruct (app_name_of_open_prefix _ Hp) as [r [Ht ->]].
    pose proof (normalized_open_rest text r Ht) as Hr.
    destruct (first_key (app_matches r) COMMON_APPS) as [k|] eqn:Hk;
      intros [= <-]; unfold well_shaped; simpl; (split; [|split; reflexivity]).
    + exists k. split; [reflexivity|].
      apply keys_nonempty. now apply first_key_in in Hk.
    + exists r. now split.
  - fold (blank text). intros H.
    destruct (toggle_tiers_shape (normalize text) text i H) as [Ha | [Ht Hs]].
    + destruct (adjust_tier_shape (normalize text) text i Ha)
        as [-> | [Ht [_ [Hk [Hact [Hv _]]]]]].
      * unfold well_shaped; simpl; auto.
      * unfold well_shaped. rewrite Ht. auto.
    + unfold well_shaped. rewrite Ht. exact Hs.
Qed.

Lemma parse_intent_well_shaped_witness :
  well_shaped (mkIntent adjust_setting (Some "brightness") (Some "set")
                 (Some (AInt 70)) (Some "Set brightness to 70%")).
Proof.
  apply (parse_intent_well_shaped "Set brightness to 70%").
  vm_compute; reflexivity.
Defined.

(** X7: the tiers act as a priority table on the normalized text: open or
    launch first, then a toggle word together with a setting alias, then an
    adjust word together with an adjustable alias, else unknown; within the
    toggle tier [on] wins over [off], within the adjust tier the increase
    words win over the decrease words, and those over a leading [set]. *)
Theorem parse_intent_priority (text : string) (i : Intent) :
  parse_intent text = Returns i ->
  i_type i = decided_type (normalize text)
  /\ i_action i = decided_action (normalize text).
Proof.
  unfold parse_intent, decided_action, decided_type.
  destruct (open_prefix (normalize text)) eqn:Hp.
  - destruct (nth_error _ 1); [|discriminate].
    destruct (first_key _ COMMON_APPS); intros [= <-]; split; reflexivity.
  - unfold toggle_on_tier, toggle_off_tier, adjust_tier.
    destruct (first_key (alias_in (normalize text)) SETTINGS);
      destruct (any_in ON_WORDS (normalize text));
      destruct (any_in OFF_WORDS (normalize text));
      cbn [orb andb is_some]; try (intros [= <-]; split; reflexivity);
      destruct (any_in ADJUST_WORDS (normalize text));
      cbn [orb andb is_some]; try (intros [= <-]; split; reflexivity);
      destruct (first_key (alias_in (normalize text)) ADJUSTABLES);
      cbn [orb andb is_some]; try (intros [= <-]; split; reflexivity);
      destruct (Str.search_percent (normalize text)) as [ds|];
      try (intros [= <-]; split; reflexivity);
      (destruct (Str.int ds); [intros [= <-]; split; reflexivity
                              | discriminate]).
Qed.

Lemma parse_intent_priority_witness :
  parse_intent "turn off wifi, turn on bluetooth"
  = Returns (mkIntent toggle_setting (Some "wifi") (Some "on") None
               (Some "turn off wifi, turn on bluetooth"))
  /\ decided_action (normalize "turn off wifi, turn on bluetooth")
     = Some "on"%string.
Proof.
  assert (E : parse_intent "turn off wifi, turn on bluetooth"
              = Returns (mkIntent toggle_setting (Some "wifi") (Some "on") None
                           (Some "turn off wifi, turn on bluetooth")))
    by (vm_compute; reflexivity).
  split; [exact E|].
  exact (eq_sym (proj2 (parse_intent_priority _ _ E))).
Defined.

(** X8: a text made of white space only, the empty text included, is
    classified [unknown], with no target, action or value. *)
Theorem parse_intent_blank (text : string) :
  all_chars Str.is_space text = true ->
  parse_intent text = Returns (blank text).
Proof.
  intros H.
  assert (E : normalize text = ""%string).
  { rewrite normalize_split.
    assert (Es : Str.split (Str.lower text) = []); [|now rewrite Es].
    apply split_from_nil. split; [reflexivity | now rewrite all_space_lower]. }
  unfold parse_intent. rewrite E. reflexivity.
Qed.

Lemma parse_intent_blank_witness :
  parse_intent "   " = Returns (blank "   ").
Proof. apply parse_intent_blank. vm_compute; reflexivity. Defined.

(** X9: no alias is shadowed. Asking to open or launch any alias of an app
    gives that app; asking to turn on, or to disable, any alias of a setting
    gives that setting; asking to increase any alias of an adjustable gives
    that adjustable. *)
Theorem aliases_reach_their_key :
  aliases_resolve (fun a => target_of ("open " ++ a)) COMMON_APPS = true
  /\ aliases_resolve (fun a => target_of ("launch " ++ a)) COMMON_APPS = true
  /\ aliases_resolve (fun a => target_of ("turn on " ++ a)) SETTINGS = true
  /\ aliases_resolve (fun a => target_of ("disable " ++ a)) SETTINGS = true
  /\ aliases_resolve (fun a => target_of ("increase " ++ a)) ADJUSTABLES = true.
Proof. repeat split; vm_compute; reflexivity. Qed.

(* ------------------------------------------------------------------ *)
(** ** From the text to the device *)

Lemma parse_intent_copyable (text : string) (i : Intent) :
  parse_intent text = Returns i ->
  i_type i <> unknown ->
  (exists tg, i_target i = Some tg)
  /\ (i_type i = open_app -> i_action i = Some "open"%string)
  /\ (i_type i <> adjust_setting -> i_value i = None).
Proof.
  unfold parse_intent.
  destruct (open_prefix (normalize text)).
  - destruct (nth_error _ 1); [|discriminate].
    destruct (first_key _ COMMON_APPS); intros [= <-] _; simpl; eauto.
  - fold (blank text). intros H.
    destruct (toggle_tiers_shape (normalize text) text i H)
      as [Ha | [Ht [[k Hk] [_ Hv]]]].
    + destruct (adjust_tier_shape (normalize text) text i Ha)
        as [-> | [Ht [_ [[k [Hk _]] _]]]].
      * intros Hu; now elim Hu.
      * rewrite Ht. intros _. split; [eauto|]. split; [discriminate|].
        intros Hu; now elim Hu.
    + rewrite Ht. intros _. split; [destruct Hk; eauto|].
      split; [discriminate | intros _; exact Hv].
Qed.

Lemma find_pending_app_new (c : list Doc) (x : Doc) :
  (forall y, In y c -> is_pending y = false) ->
  is_pending x = true ->
  find_one is_pending (c ++ [x]) = Some x.
Proof.
  unfold find_one. intros Hc Hx. induction c as [|y c IH]; simpl.
  - now rewrite Hx.
  - rewrite (Hc y (or_introl eq_refl)). apply IH.
    intros z Hz. apply Hc. now right.
Qed.

(** X10: what the classifier found travels unchanged to the device. When
    the intent classified from a text is posted, the queued action has the
    intent's target, action and value and the kind of its type; and if
    nothing was pending before, the next poll answers with that action,
    under the minted id, reserved for the polling device. *)
Theorem classified_intent_reaches_device (db : Database)
    (oid1 oid2 uuid : string) (role : Role) (text : string) (i : Intent)
    (device_id : option string) (now : Z) :
  parse_intent text = Returns i ->
  i_type i <> unknown ->
  let db' := snd (create_interaction db oid1 oid2 uuid
                    (mkInteraction role text (Some i))) in
  exists a,
    deviceaction db' = deviceaction db ++ [mkDoc oid2 a None]
    /\ i_target i = Some (da_target a)
    /\ da_action a = i_action i
    /\ da_value a = i_value i
    /\ kind_of (i_type i) = Some (da_kind a)
    /\ ((forall y, In y (deviceaction db) -> is_pending y = false) ->
        uuid <> ""%string ->
        fst (get_next_action (Some db') device_id now)
        = Some (mkDeviceAction uuid (da_kind a) (da_target a) (da_action a)
                  (da_value a) reserved device_id None)).
Proof.
  intros Hp Hu. cbv zeta.
  destruct (parse_intent_copyable text i Hp Hu) as [[tg Htg] [Ho Hv]].
  assert (Ha : exists k,
             kind_of (i_type i) = Some k
             /\ to_action uuid (Some i)
                = Some (mkDeviceAction uuid k tg (i_action i) (i_value i)
                          pending None None)).
  { unfold to_action, new_action. rewrite Htg. cbn [or_empty].
    destruct (i_type i) eqn:Ht; try (now elim Hu); eexists;
      (split; [reflexivity|]).
    - now rewrite (Ho eq_refl), Hv by discriminate.
    - now rewrite Hv by discriminate.
    - reflexivity. }
  destruct Ha as [k [Hk Ha]].
  exists (mkDeviceAction uuid k tg (i_action i) (i_value i) pending None None).
  assert (E : deviceaction
                (snd (create_interaction db oid1 oid2 uuid
                        (mkInteraction role text (Some i))))
              = deviceaction db
                ++ [mkDoc oid2
                      (mkDeviceAction uuid k tg (i_action i) (i_value i)
                         pending None None) None]).
  { rewrite create_interaction_deviceaction. cbn [it_intent]. now rewrite Ha. }
  cbn [da_target da_action da_value da_kind].
  repeat (split; [assumption || reflexivity|]).
  intros Hnone Hne.
  assert (Hf : find_one is_pending
                 (deviceaction
                    (snd (create_interaction db oid1 oid2 uuid
                            (mkInteraction role text (Some i)))))
               = Some (mkDoc oid2
                         (mkDeviceAction uuid k tg (i_action i) (i_value i)
                            pending None None) None)).
  { rewrite E. apply find_pending_app_new; [exact Hnone | reflexivity]. }
  rewrite (get_next_action_some _ _ device_id now Hf). cbn [fst].
  unfold reserved_view. cbn [doc_body doc_oid da_id].
  destruct uuid; [now elim Hne | reflexivity].
Qed.

Lemma classified_intent_reaches_device_witness :
  parse_intent "set volume to 30%"
  = Returns (mkIntent adjust_setting (Some "volume") (Some "set")
               (Some (AInt 30)) (Some "set volume to 30%"))
  /\ fst (get_next_action
            (Some (snd (create_interaction empty_db "i1" "o1" "u1"
                          (mkInteraction user "set volume to 30%"
                             (Some (mkIntent adjust_setting (Some "volume")
                                      (Some "set") (Some (AInt 30))
                                      (Some "set volume to 30%")))))))
            (Some "phone"%string) 5%Z)
     = Some (mkDeviceAction "u1" k_adjust "volume" (Some "set"%string)
               (Some (AInt 30)) reserved (Some "phone"%string) None).
Proof.
  assert (E : parse_intent "set volume to 30%"
              = Returns (mkIntent adjust_setting (Some "volume") (Some "set")
                           (Some (AInt 30)) (Some "set volume to 30%")))
    by (vm_compute; reflexivity).
  split; [exact E|].
  destruct (classified_intent_reaches_device empty_db "i1" "o1" "u1" user
              "set volume to 30%" _ (Some "phone"%string) 5%Z E)
    as [a [_ [Ht [Ha [Hv [Hk Hpoll]]]]]]; [discriminate|].
  rewrite Hpoll; [|intros y [] | discriminate].
  cbn in Ht, Ha, Hv, Hk. injection Ht as <-. injection Hk as <-.
  now rewrite Ha, Hv.
Defined.

(* ------------------------------------------------------------------ *)
(** ** The queue as a whole *)

Lemma find_split (flt : Doc -> bool) (c : list Doc) (p : Doc) :
  find flt c = Some p ->
  exists pre post,
    c = pre ++ p :: post
    /\ (forall x, In x pre -> flt x = false)
    /\ flt p = true.
Proof.
  induction c as [|y c IH]; simpl; [discriminate|].
  destruct (flt y) eqn:Hy.
  - intros [= <-]. exists [], c. repeat split; [intros x []|exact Hy].
  - intros H. destruct (IH H) as [pre [post [-> [Hpre Hp]]]].
    exists (y :: pre), post. repeat split; [|exact Hp].
    intros x [<-|Hx]; [exact Hy | now apply Hpre].
Qed.

Lemma update_one_at (flt : Doc -> bool) (upd : Doc -> Doc)
    (pre post : list Doc) (p : Doc) :
  (forall x, In x pre -> flt x = false) ->
  flt p = true ->
  update_one flt upd (pre ++ p :: post) = (pre ++ upd p :: post, 1).
Proof.
  intros Hpre Hp. induction pre as [|y pre IH]; simpl.
  - now rewrite Hp.
  - rewrite (Hpre y (or_introl eq_refl)), IH; [reflexivity|].
    intros x Hx. apply Hpre. now right.
Qed.

Lemma NoDup_map_eq {A B : Type} (f : A -> B) (l : list A) (x y : A) :
  NoDup (map f l) -> In x l -> In y l -> f x = f y -> x = y.
Proof.
  induction l as [|z l IH]; simpl; [intros _ []|].
  intros Hnd Hx Hy E. inversion Hnd as [|? ? Hz Hnd']; subst.
  destruct Hx as [->|Hx], Hy as [->|Hy]; auto.
  - elim Hz. rewrite E. now apply in_map.
  - elim Hz. rewrite <- E. now apply in_map.
Qed.

Lemma NoDup_before {A B : Type} (f : A -> B) (pre post : list A) (p x : A) :
  NoDup (map f (pre ++ p :: post)) -> In x pre -> f x <> f p.
Proof.
  intros Hnd Hx E.
  rewrite map_app in Hnd. simpl in Hnd.
  apply NoDup_remove_2 in Hnd. apply Hnd.
  apply in_or_app. left. rewrite <- E. now apply in_map.
Qed.

(** the first pending document, with what stands before and after it *)
Lemma first_pending_split (c : list Doc) (p : Doc) :
  NoDup (oids c) ->
  find_one is_pending c = Some p ->
  exists pre post,
    c = pre ++ p :: post
    /\ (forall x, In x pre -> is_pending x = false)
    /\ is_pending p = true
    /\ (forall x, In x pre -> has_oid (doc_oid p) x = false).
Proof.
  intros Hnd Hf. destruct (find_split _ _ _ Hf) as [pre [post [-> [Hpre Hp]]]].
  exists pre, post. repeat split; auto.
  intros x Hx. unfold has_oid. apply String.eqb_neq.
  exact (NoDup_before doc_oid pre post p x Hnd Hx).
Qed.

Lemma with_deviceaction_same (d : Database) :
  with_deviceaction d (deviceaction d) = d.
Proof. now destruct d. Qed.

(** X11: the answer of a poll is no work exactly when no document is
    pending, and then the store is left as it was; with no database
    configured the answer is no work as well, not an error. *)
Theorem get_next_action_no_work (d : Database) (device_id : option string)
    (now : Z) :
  (fst (get_next_action (Some d) device_id now) = None
   <-> forall x, In x (deviceaction d) -> da_status (doc_body x) <> pending)
  /\ (fst (get_next_action (Some d) device_id now) = None ->
      snd (get_next_action (Some d) device_id now) = Some d)
  /\ get_next_action None device_id now = (None, None).
Proof.
  split; [|split; [|reflexivity]].
  - unfold get_next_action.
    destruct (find_one is_pending (deviceaction d)) as [p|] eqn:Hf; simpl.
    + split; [discriminate|]. intros H.
      apply find_some in Hf as [Hin Hp]. elim (H p Hin).
      unfold is_pending in Hp. now destruct (da_status (doc_body p)).
    + split; [|reflexivity]. intros _ x Hx Hs.
      pose proof (find_none _ _ Hf x Hx) as Hn. unfold is_pending in Hn.
      rewrite Hs in Hn. discriminate.
  - unfold get_next_action.
    destruct (find_one is_pending (deviceaction d)); [discriminate|reflexivity].
Qed.

Lemma get_next_action_no_work_witness :
  fst (get_next_action one_completed (Some "phone"%string) 40%Z) = None
  /\ snd (get_next_action one_completed (Some "phone"%string) 40%Z)
     = one_completed.
Proof.
  split; [reflexivity|].
  apply (proj1 (proj2 (get_next_action_no_work _ (Some "phone"%string) 40%Z))).
  reflexivity.
Defined.

(** X12: a poll that is answered takes the first pending document of the
    collection: nothing before it is pending, the answer is that document
    seen as reserved for the caller, and the store afterwards differs only
    in that document, now reserved for the caller and stamped with the time
    of the call. *)
Theorem get_next_action_reserves_first (d : Database)
    (device_id : option string) (now : Z) (a : DeviceAction)
    (db' : option Database) :
  NoDup (oids (deviceaction d)) ->
  get_next_action (Some d) device_id now = (Some a, db') ->
  exists pre p post,
    deviceaction d = pre ++ p :: post
    /\ (forall x, In x pre -> da_status (doc_body x) <> pending)
    /\ da_status (doc_body p) = pending
    /\ a = reserved_view device_id p
    /\ docs db'
       = pre
         ++ mkDoc (doc_oid p)
              (mkDeviceAction (da_id (doc_body p)) (da_kind (doc_body p))
                 (da_target (doc_body p)) (da_action (doc_body p))
                 (da_value (doc_body p)) reserved device_id
                 (da_result (doc_body p)))
              (Some now)
         :: post.
Proof.
  intros Hnd. unfold get_next_action.
  destruct (find_one is_pending (deviceaction d)) as [p|] eqn:Hf;
    [|discriminate].
  intros [= <- <-].
  destruct (first_pending_split _ _ Hnd Hf) as [pre [post [E [Hpre [Hp Ho]]]]].
  exists pre, p, post. split; [exact E|]. split.
  { intros x Hx Hs. pose proof (Hpre x Hx) as Hn. unfold is_pending in Hn.
    rewrite Hs in Hn. discriminate. }
  split.
  { unfold is_pending in Hp. now destruct (da_status (doc_body p)). }
  split; [reflexivity|].
  cbn [docs deviceaction with_deviceaction]. rewrite E.
  rewrite update_one_at; [reflexivity | exact Ho|].
  unfold has_oid. apply String.eqb_refl.
Qed.

Lemma get_next_action_reserves_first_witness :
  NoDup (oids (deviceaction two_enqueued))
  /\ exists pre p post,
      deviceaction two_enqueued = pre ++ p :: post
      /\ fst (get_next_action (Some two_enqueued) (Some "phone"%string) 7%Z)
         = Some (reserved_view (Some "phone"%string) p).
Proof.
  assert (H : NoDup (oids (deviceaction two_enqueued))).
  { repeat constructor; simpl; intuition discriminate. }
  split; [exact H|].
  destruct (get_next_action_reserves_first two_enqueued
              (Some "phone"%string) 7%Z _ _ H eq_refl)
    as [pre [p [post [E [_ [_ [Ha _]]]]]]].
  exists pre, p, post. split; [exact E|]. now rewrite <- Ha.
Defined.

Lemma store_ok_update (flt : Doc -> bool) (upd : Doc -> Doc) (c : list Doc) :
  (forall x, doc_oid (upd x) = doc_oid x) ->
  (forall x, da_id (doc_body (upd x)) = da_id (doc_body x)) ->
  store_ok c -> store_ok (fst (update_one flt upd c)).
Proof.
  intros Ho Hi [H1 [H2 H3]]. unfold store_ok, oids, ids.
  rewrite (update_one_map flt upd doc_oid c Ho).
  rewrite (update_one_map flt upd (fun d => da_id (doc_body d)) c Hi).
  auto.
Qed.

(** X13: the queue keeps its identifiers in order. If no two documents
    share an [_id] or an [id] and no [id] is empty, this is still so after a
    poll, after a completion, and after an interaction is posted with an
    [_id] and a non-empty [id] that are not yet in use. *)
Theorem store_ok_preserved (d : Database) (device_id : option string)
    (action_id : string) (payload : CompleteActionRequest) (now : Z)
    (oid1 oid2 uuid : string) (item : Interaction) :
  store_ok (deviceaction d) ->
  store_ok (docs (snd (get_next_action (Some d) device_id now)))
  /\ store_ok (docs (snd (complete_action (Some d) action_id payload now)))
  /\ (~ In oid2 (oids (deviceaction d)) ->
      ~ In uuid (ids (deviceaction d)) ->
      uuid <> ""%string ->
      store_ok (deviceaction (snd (create_interaction d oid1 oid2 uuid item)))).
Proof.
  intros Hok. split; [|split].
  - unfold get_next_action.
    destruct (find_one is_pending (deviceaction d)); [|exact Hok].
    cbn [snd docs deviceaction with_deviceaction].
    now apply store_ok_update.
  - rewrite complete_action_unfold.
    cbn [snd docs deviceaction with_deviceaction].
    now apply store_ok_update.
  - intros Hoid Hid Hne. rewrite create_interaction_deviceaction.
    destruct (to_action uuid (it_intent item)) as [a|] eqn:Ha;
      [|now rewrite app_nil_r].
    assert (Eid : da_id a = uuid).
    { unfold to_action in Ha. destruct (it_intent item) as [i|]; [|discriminate].
      destruct (i_type i); inversion Ha; reflexivity. }
    destruct Hok as [H1 [H2 H3]]. unfold store_ok, oids, ids in *.
    rewrite !map_app. cbn [map doc_oid doc_body]. rewrite Eid.
    split; [|split].
    + apply NoDup_app; [exact H1 | repeat constructor; simpl; tauto|].
      intros x Hx [<-|[]]. contradiction.
    + apply NoDup_app; [exact H2 | repeat constructor; simpl; tauto|].
      intros x Hx [<-|[]]. contradiction.
    + intros Hin. apply in_app_or in Hin as [Hin|[E|[]]];
        [contradiction | now apply Hne].
Qed.

Lemma store_ok_preserved_witness :
  store_ok (deviceaction two_enqueued)
  /\ store_ok (deviceaction
                 (snd (create_interaction two_enqueued "i3" "o3" "u3"
                         (mkInteraction user "open gmail"
                            (intent_of "open gmail"))))).
Proof.
  assert (H : store_ok (deviceaction two_enqueued)).
  { repeat split; repeat constructor; simpl; intuition discriminate. }
  split; [exact H|].
  apply (proj2 (proj2 (store_ok_preserved two_enqueued None "" 
                         (mkCompleteActionRequest None cs_completed) 0%Z
                         "i3" "o3" "u3"
                         (mkInteraction user "open gmail"
                            (intent_of "open gmail")) H)));
    [simpl; intuition discriminate | simpl; intuition discriminate
    | discriminate].
Defined.

(** X14: in a store where no two documents share an [_id] or an [id] and no
    [id] is empty, a claimed action can be completed under the id it was
    handed out with. After a poll answered with an action, completing that
    action's id is answered ok and rewrites the very document the poll
    reserved: it keeps its place, its [_id], the fields fixed at creation and
    the device it was reserved for, and now holds the reported status and
    result. (A document with an empty [id] is handed out under its [_id],
    line 265, and line 288 looks the id up in [id]: see
    [empty_id_is_handed_out_under_oid].) *)
Theorem claimed_action_completes (d : Database) (device_id : option string)
    (now : Z) (a : DeviceAction) (db' : option Database)
    (payload : CompleteActionRequest) (later : Z) :
  store_ok (deviceaction d) ->
  get_next_action (Some d) device_id now = (Some a, db') ->
  exists pre p post,
    deviceaction d = pre ++ p :: post
    /\ da_id a = da_id (doc_body p)
    /\ fst (complete_action db' (da_id a) payload later) = Returns ok_true
    /\ docs (snd (complete_action db' (da_id a) payload later))
       = pre
         ++ mkDoc (doc_oid p)
              (mkDeviceAction (da_id (doc_body p)) (da_kind (doc_body p))
                 (da_target (doc_body p)) (da_action (doc_body p))
                 (da_value (doc_body p)) (status_of (cr_status payload))
                 device_id (cr_result payload))
              (Some later)
         :: post.
Proof.
  intros [Hno [Hni Hne]]. unfold get_next_action.
  destruct (find_one is_pending (deviceaction d)) as [p|] eqn:Hf;
    [|discriminate].
  intros [= <- <-].
  destruct (first_pending_split _ _ Hno Hf) as [pre [post [E [_ [_ Ho]]]]].
  exists pre, p, post. split; [exact E|].
  assert (Hid : da_id (reserved_view device_id p) = da_id (doc_body p)).
  { unfold reserved_view. cbn [da_id].
    destruct (da_id (doc_body p)) eqn:Ei; [|reflexivity].
    elim Hne. unfold ids. rewrite E, map_app. apply in_or_app. right. left.
    exact Ei. }
  split; [exact Hid|]. rewrite Hid.
  rewrite complete_action_unfold. cbn [deviceaction with_deviceaction].
  rewrite E.
  rewrite (update_one_at (has_oid (doc_oid p)) _ pre post p Ho)
    by (unfold has_oid; apply String.eqb_refl).
  cbn [fst].
  rewrite (update_one_at (has_id (da_id (doc_body p))) _ pre post).
  - split; reflexivity.
  - intros x Hx. unfold has_id. apply String.eqb_neq.
    rewrite E in Hni.
    exact (NoDup_before (fun y => da_id (doc_body y)) pre post p x Hni Hx).
  - unfold has_id. cbn. apply String.eqb_refl.
Qed.

Lemma claimed_action_completes_witness :
  store_ok (deviceaction two_enqueued)
  /\ fst (complete_action
            (snd (get_next_action (Some two_enqueued) (Some "phone"%string)
                    7%Z))
            "u1" (mkCompleteActionRequest None cs_completed) 9%Z)
     = Returns ok_true.
Proof.
  assert (H : store_ok (deviceaction two_enqueued)).
  { repeat split; repeat constructor; simpl; intuition discriminate. }
  split; [exact H|].
  destruct (claimed_action_completes two_enqueued (Some "phone"%string) 7%Z
              _ _ (mkCompleteActionRequest None cs_completed) 9%Z H eq_refl)
    as [pre [p [post [_ [_ [Hok _]]]]]].
  exact Hok.
Defined.

(** The edge that the invariant of X14 excludes: an action stored with an
    empty [id] is handed out under its [_id], and completing that id finds
    no document. *)
Example empty_id_is_handed_out_under_oid :
  option_map da_id
    (fst (get_next_action (Some one_pending_without_id)
            (Some "phone"%string) 1%Z))
  = Some "oid9"%string
  /\ fst (complete_action
            (snd (get_next_action (Some one_pending_without_id)
                    (Some "phone"%string) 1%Z))
            "oid9" (mkCompleteActionRequest None cs_completed) 2%Z)
     = Raises (HTTPException 404 "Action not found").
Proof. split; reflexivity. Qed.

(** X15: an error answer of [complete_action] never comes with a change of
    the store; the error is 500 exactly when no database is configured and
    404 otherwise. *)
Theorem complete_action_error_keeps_store (db : option Database)
    (action_id : string) (payload : CompleteActionRequest) (now : Z) :
  is_error (fst (complete_action db action_id payload now)) = true ->
  snd (complete_action db action_id payload now) = db
  /\ fst (complete_action db action_id payload now)
     = match db with
       | None => Raises (HTTPException 500 "Database not configured")
       | Some _ => Raises (HTTPException 404 "Action not found")
       end.
Proof.
  destruct db as [d|]; [|split; reflexivity].
  rewrite complete_action_unfold. cbn [fst snd].
  destruct (find (has_id action_id) (deviceaction d)) as [x|] eqn:Hf.
  - rewrite (update_one_some _ _ _ _ Hf). discriminate.
  - rewrite (update_one_none _ _ _ Hf). cbn [fst snd]. intros _.
    now rewrite with_deviceaction_same.
Qed.

Lemma complete_action_error_keeps_store_witness :
  snd (complete_action one_pending "nope"
         (mkCompleteActionRequest None cs_failed) 3%Z)
  = one_pending.
Proof.
  apply (complete_action_error_keeps_store one_pending "nope"
           (mkCompleteActionRequest None cs_failed) 3%Z).
  reflexivity.
Defined.

Lemma update_one_untouched (flt : Doc -> bool) (upd : Doc -> Doc)
    (c : list Doc) :
  (forall x, is_pending (upd x) = false) ->
  Forall2 pending_means_untouched c (fst (update_one flt upd c)).
Proof.
  intros Hu. induction c as [|x c IH]; simpl; [constructor|].
  destruct (flt x).
  - simpl. constructor.
    + intros H. rewrite Hu in H. discriminate.
    + clear. induction c; constructor; [intros _; reflexivity | assumption].
  - destruct (update_one flt upd c) as [c' n]. simpl in *.
    constructor; [intros _; reflexivity | exact IH].
Qed.

Lemma untouched_refl (c : list Doc) : Forall2 pending_means_untouched c c.
Proof. induction c; constructor; [intros _; reflexivity | assumption]. Qed.

Lemma untouched_count (c c' : list Doc) :
  Forall2 pending_means_untouched c c' -> pending_count c' <= pending_count c.
Proof.
  unfold pending_count. induction 1 as [|x y c c' Hxy _ IH]; [reflexivity|].
  simpl. destruct (is_pending y) eqn:Hy.
  - rewrite <- (Hxy Hy), Hy. simpl. lia.
  - destruct (is_pending x); simpl; lia.
Qed.

Lemma move_untouched (db : option Database) (q : Poll) :
  Forall2 pending_means_untouched (docs db) (docs (fst (move db q))).
Proof.
  unfold move. destruct (poll_at q) as [|p|r], db as [d|];
    try apply untouched_refl.
  - destruct (find_one is_pending (deviceaction d)); apply untouched_refl.
  - cbn [fst docs deviceaction with_deviceaction].
    now apply update_one_untouched.
Qed.

(** X16: there is no way back to pending. After a poll, a completion, or a
    single store operation of an overlapping poll, every document that is
    pending is the document that stood at the same place before, unchanged;
    so the number of pending documents never grows. *)
Theorem no_way_back_to_pending (db : option Database)
    (device_id : option string) (action_id : string)
    (payload : CompleteActionRequest) (now : Z) (q : Poll) :
  let after_poll := docs (snd (get_next_action db device_id now)) in
  let after_complete :=
    docs (snd (complete_action db action_id payload now)) in
  let after_move := docs (fst (move db q)) in
  Forall2 pending_means_untouched (docs db) after_poll
  /\ Forall2 pending_means_untouched (docs db) after_complete
  /\ Forall2 pending_means_untouched (docs db) after_move
  /\ pending_count after_poll <= pending_count (docs db)
  /\ pending_count after_complete <= pending_count (docs db)
  /\ pending_count after_move <= pending_count (docs db).
Proof.
  cbv zeta.
  assert (H1 : Forall2 pending_means_untouched (docs db)
                 (docs (snd (get_next_action db device_id now)))).
  { destruct db as [d|]; [|constructor]. unfold get_next_action.
    destruct (find_one is_pending (deviceaction d)); [|apply untouched_refl].
    cbn [snd docs deviceaction with_deviceaction].
    now apply update_one_untouched. }
  assert (H2 : Forall2 pending_means_untouched (docs db)
                 (docs (snd (complete_action db action_id payload now)))).
  { destruct db as [d|]; [|constructor]. rewrite complete_action_unfold.
    cbn [snd docs deviceaction with_deviceaction].
    apply update_one_untouched. intros x. unfold is_pending. cbn.
    now destruct (cr_status payload). }
  pose proof (move_untouched db q) as H3.
  repeat split; auto using untouched_count.
Qed.

(** what sequential polls answer are pending documents of the store *)
Lemma poll_all_answers (calls : list (option string * Z)) :
  forall (d : Database) (a : DeviceAction),
    NoDup (map doc_oid (deviceaction d)) ->
    In (Some a) (fst (poll_all (Some d) calls)) ->
    exists p device_id,
      In p (filter is_pending (deviceaction d))
      /\ a = reserved_view device_id p.
Proof.
  induction calls as [|[device_id now] calls IH]; intros d a Hnd Hin;
    [destruct Hin|].
  cbn [poll_all] in Hin.
  destruct (poll_step d device_id now Hnd) as [d' [E [Hnd' Hp]]].
  rewrite E in Hin.
  destruct (poll_all (Some d') calls) as [rs db2] eqn:Er.
  cbn [fst] in Hin. destruct Hin as [Hhd|Htl].
  - destruct (filter is_pending (deviceaction d)) as [|p ps];
      [discriminate|].
    injection Hhd as <-. exists p, device_id. split; [now left | reflexivity].
  - assert (Htl' : In (Some a) (fst (poll_all (Some d') calls)))
      by now rewrite Er.
    destruct (IH d' a Hnd' Htl') as [p [dev [Hp' Ha]]].
    exists p, dev. split; [|exact Ha].
    rewrite Hp in Hp'.
    destruct (filter is_pending (deviceaction d)); [destruct Hp' | now right].
Qed.

(** X17: a completed action is out of the queue. Once [complete_action] has
    answered ok for an id, no later poll is answered with an action of that
    id, however many polls follow. *)
Theorem completed_action_not_handed_out (d : Database) (action_id : string)
    (payload : CompleteActionRequest) (now : Z)
    (calls : list (option string * Z)) (a : DeviceAction) :
  store_ok (deviceaction d) ->
  fst (complete_action (Some d) action_id payload now) = Returns ok_true ->
  In (Some a)
    (fst (poll_all (snd (complete_action (Some d) action_id payload now))
            calls)) ->
  da_id a <> action_id.
Proof.
  intros [Hno [Hni Hne]]. rewrite complete_action_unfold. cbn [fst snd].
  destruct (find (has_id action_id) (deviceaction d)) as [x|] eqn:Hf;
    [|now rewrite (update_one_none _ _ _ Hf)].
  intros _. destruct (find_split _ _ _ Hf) as [pre [post [E [Hpre Hx]]]].
  rewrite E, (update_one_at _ _ pre post x Hpre Hx). cbn [fst].
  set (x' := set_completed payload now x).
  set (d' := with_deviceaction d (pre ++ x' :: post)).
  assert (Hoids : map doc_oid (deviceaction d') = map doc_oid (deviceaction d)).
  { unfold d'. cbn [deviceaction with_deviceaction]. rewrite E, !map_app.
    reflexivity. }
  assert (Hids : ids (deviceaction d') = ids (deviceaction d)).
  { unfold d', ids. cbn [deviceaction with_deviceaction]. rewrite E, !map_app.
    reflexivity. }
  intros Hin.
  assert (Hnd' : NoDup (map doc_oid (deviceaction d')))
    by (rewrite Hoids; exact Hno).
  destruct (poll_all_answers calls d' a Hnd' Hin) as [p [dev [Hp ->]]].
  apply filter_In in Hp as [Hp Hpend].
  assert (Hpid : da_id (doc_body p) <> ""%string).
  { intros Ei. apply Hne. rewrite <- Hids, <- Ei. unfold ids.
    exact (in_map (fun y => da_id (doc_body y)) _ _ Hp). }
  assert (Hv : da_id (reserved_view dev p) = da_id (doc_body p)).
  { unfold reserved_view. cbn [da_id].
    destruct (da_id (doc_body p)); [now elim Hpid | reflexivity]. }
  rewrite Hv. intros Eid.
  assert (Hx' : In x' (deviceaction d')).
  { unfold d'. cbn [deviceaction with_deviceaction].
    apply in_or_app. right. now left. }
  assert (Epx : p = x').
  { apply (NoDup_map_eq (fun y => da_id (doc_body y)) (deviceaction d'));
      [fold (ids (deviceaction d')); rewrite Hids; exact Hni
      | exact Hp | exact Hx' |].
    rewrite Eid. unfold x'. cbn [set_completed doc_body da_id].
    unfold has_id in Hx. apply String.eqb_eq in Hx. now rewrite Hx. }
  subst p. unfold x', is_pending in Hpend. cbn in Hpend.
  destruct (cr_status payload); discriminate.
Qed.

Lemma completed_action_not_handed_out_witness :
  store_ok (docs one_pending)
  /\ fst (complete_action one_pending "a1"
            (mkCompleteActionRequest None cs_failed) 3%Z) = Returns ok_true
  /\ fst (poll_all (snd (complete_action one_pending "a1"
                           (mkCompleteActionRequest None cs_failed) 3%Z))
            [(Some "phone"%string, 4%Z); (Some "tablet"%string, 5%Z)])
     = [None; None]
  /\ (forall a,
        In (Some a)
          (fst (poll_all (snd (complete_action one_pending "a1"
                                 (mkCompleteActionRequest None cs_failed) 3%Z))
                  [(Some "phone"%string, 4%Z); (Some "tablet"%string, 5%Z)])) ->
        da_id a <> "a1"%string).
Proof.
  assert (H : store_ok (docs one_pending)).
  { repeat split; repeat constructor; simpl; intuition discriminate. }
  split; [exact H|]. split; [reflexivity|]. split; [reflexivity|].
  intros a.
  apply (completed_action_not_handed_out _ "a1"
           (mkCompleteActionRequest None cs_failed) 3%Z
           [(Some "phone"%string, 4%Z); (Some "tablet"%string, 5%Z)] a H).
  reflexivity.
Defined.

(* ------------------------------------------------------------------ *)
(** ** Polls in any interleaving *)









Lemma untouched_trans (c1 c2 c3 : list Doc) :
  Forall2 pending_means_untouched c1 c2 ->
  Forall2 pending_means_untouched c2 c3 ->
  Forall2 pending_means_untouched c1 c3.
Proof.
  intros H12. revert c3. induction H12 as [|x y c1 c2 Hxy _ IH]; intros c3 H23;
    inversion H23 as [|? z ? c3' Hyz H23']; subst; constructor.
  - intros Hz. pose proof (Hyz Hz) as ->. now apply Hxy.
  - now apply IH.
Qed.

(** X19: however polls overlap, they change nothing but status, device and
    update time: after any interleaving the store holds the same documents
    in the same order with the same [_id], [id], kind, target, action, value
    and result, and every document still pending is untouched. *)
Theorem run_schedule_frame (sched : list nat) (db : option Database)
    (polls : list Poll) :
  map kept_by_claim (docs (fst (run_schedule sched (db, polls))))
  = map kept_by_claim (docs db)
  /\ Forall2 pending_means_untouched (docs db)
       (docs (fst (run_schedule sched (db, polls)))).
Proof.
  unfold run_schedule. revert db polls.
  induction sched as [|i sched IH]; intros db polls; cbn [fold_left].
  - split; [reflexivity | apply untouched_refl].
  - assert (H : map kept_by_claim (docs (fst (sched_step (db, polls) i)))
                = map kept_by_claim (docs db)
                /\ Forall2 pending_means_untouched (docs db)
                     (docs (fst (sched_step (db, polls) i)))).
    { unfold sched_step. cbn [fst snd].
      destruct (nth_error polls i) as [q|];
        [|split; [reflexivity | apply untouched_refl]].
      pose proof (move_keeps_fixed_fields db q) as Hk.
      pose proof (move_untouched db q) as Hu.
      destruct (move db q) as [db1 q1]. cbn [fst] in *. now split. }
    destruct (sched_step (db, polls) i) as [db1 ps1]. cbn [fst] in H.
    destruct H as [Hk Hu]. destruct (IH db1 ps1) as [Hk' Hu'].
    split; [now rewrite Hk', Hk | exact (untouched_trans _ _ _ Hu Hu')].
Qed.

(* ------------------------------------------------------------------ *)
(** ** The percentage *)

Lemma span_digits_app_digits (ds r : string) :
  all_chars Str.is_digit ds = true ->
  Str.span_digits (ds ++ r)%string
  = ((ds ++ fst (Str.span_digits r))%string, snd (Str.span_digits r)).
Proof.
  induction ds as [|c ds IH]; simpl; [now destruct (Str.span_digits r)|].
  intros H. apply andb_true_iff in H as [Hc Hd]. rewrite Hc, (IH Hd).
  reflexivity.
Qed.

Lemma span_digits_app_rest (s x : string) :
  snd (Str.span_digits s) <> ""%string ->
  Str.span_digits (s ++ x)%string
  = (fst (Str.span_digits s), (snd (Str.span_digits s) ++ x)%string).
Proof.
  induction s as [|c s IH]; simpl; [intros H; now elim H|].
  destruct (Str.is_digit c) eqn:Hc; [|reflexivity].
  destruct (Str.span_digits s) as [d r]. simpl in *.
  intros H. now rewrite (IH H).
Qed.

Lemma span_digits_whole (s : string) :
  snd (Str.span_digits s) = ""%string ->
  s = ""%string \/ ends_with_digit s = true.
Proof.
  induction s as [|c s IH]; simpl; [now left|].
  destruct (Str.is_digit c) eqn:Hc; [|discriminate].
  destruct (Str.span_digits s) as [d r]. simpl in *. intros ->. right.
  destruct (IH eq_refl) as [-> | H]; [reflexivity|].
  destruct s; [discriminate | exact H].
Qed.

Lemma startswith_app (r x : string) (p : ascii) :
  r <> ""%string ->
  Str.startswith (r ++ x)%string (String p "") = Str.startswith r (String p "").
Proof.
  destruct r as [|c r]; [intros H; now elim H|]. intros _.
  unfold Str.startswith. cbn [append String.prefix].
  destruct (ascii_dec p c); [|reflexivity].
  now destruct (r ++ x)%string, r.
Qed.

Lemma startswith_head (c : ascii) (s : string) :
  Str.startswith (String c s) (String c "") = true.
Proof.
  unfold Str.startswith. cbn [String.prefix].
  destruct (ascii_dec c c) as [_|N]; [now destruct s | now elim N].
Qed.

Lemma search_percent_head (ds post : string) :
  ds <> ""%string ->
  all_chars Str.is_digit ds = true ->
  Str.search_percent (ds ++ String "%" post)%string = Some ds.
Proof.
  intros Hne Hds. destruct ds as [|d ds]; [now elim Hne|].
  pose proof Hds as Hds'. simpl in Hds.
  apply andb_true_iff in Hds as [Hd _].
  change (String d ds ++ String "%" post)%string
    with (String d (ds ++ String "%" post)%string).
  cbn [Str.search_percent]. rewrite Hd.
  change (String d (ds ++ String "%" post)%string)
    with (String d ds ++ String "%" post)%string.
  rewrite (span_digits_app_digits (String d ds) _ Hds').
  change (Str.span_digits (String "%" post)) with (""%string, String "%" post).
  cbn [fst snd]. rewrite startswith_head, append_nil_r. reflexivity.
Qed.

(** X20: the value is the whole number written before the first percent
    sign that follows a digit. If the text is [pre ++ ds ++ "%" ++ post]
    where [ds] is a non-empty run of digits, [pre] does not end with a digit
    and no digit of [pre] is followed by a percent sign, then the search of
    line 161 finds exactly [ds]. *)
Theorem search_percent_finds_first (pre ds post : string) :
  ds <> ""%string ->
  all_chars Str.is_digit ds = true ->
  ends_with_digit pre = false ->
  Str.search_percent pre = None ->
  Str.search_percent (pre ++ ds ++ "%" ++ post)%string = Some ds.
Proof.
  intros Hne Hds.
  change ("%" ++ post)%string with (String "%" post).
  induction pre as [|c pre IH]; intros Hend Hnone.
  - now apply search_percent_head.
  - assert (Hend' : ends_with_digit pre = false
                    /\ (Str.is_digit c = true -> pre <> ""%string)).
    { simpl in Hend. destruct pre; [|split; [exact Hend | discriminate]].
      simpl in Hend. split; [reflexivity|]. congruence. }
    destruct Hend' as [Hend' Hpre].
    change (String c pre ++ ds ++ String "%" post)%string
      with (String c (pre ++ ds ++ String "%" post)%string).
    cbn [Str.search_percent] in Hnone |- *.
    destruct (Str.is_digit c) eqn:Hc; [|now apply IH].
    change (String c (pre ++ ds ++ String "%" post)%string)
      with (String c pre ++ (ds ++ String "%" post))%string.
    assert (Hr : snd (Str.span_digits (String c pre)) <> ""%string).
    { intros E. apply span_digits_whole in E as [E|E];
        [discriminate | congruence]. }
    rewrite (span_digits_app_rest _ _ Hr).
    destruct (Str.span_digits (String c pre)) as [d r]. cbn [fst snd] in *.
    rewrite (startswith_app r _ "%"%char Hr).
    destruct (Str.startswith r "%"); [discriminate | now apply IH].
Qed.

Lemma search_percent_finds_first_witness :
  Str.search_percent ("set volume to " ++ "40" ++ "%" ++ " or 7%")%string
  = Some "40"%string
  /\ Str.int_of_digits "40" = 40%Z.
Proof.
  split; [|reflexivity].
  apply (search_percent_finds_first "set volume to " "40" " or 7%");
    [discriminate | reflexivity | reflexivity | reflexivity].
Defined.

(* ------------------------------------------------------------------ *)
(** ** The read handlers *)

Lemma doc_get_filter (keep : string -> bool) (k : string) (d : document) :
  doc_get k (filter (fun kv => keep (fst kv)) d)
  = if keep k then doc_get k d else None.
Proof.
  induction d as [|[k' v] d IH]; simpl; [now destruct (keep k)|].
  destruct (String.eqb k' k) eqn:E.
  - apply String.eqb_eq in E. subst k'.
    destruct (keep k); simpl; [now rewrite String.eqb_refl | exact IH].
  - destruct (keep k'); simpl; [rewrite E|]; exact IH.
Qed.

(** X21: the latest emotion never shows a key other than [mood], [arousal]
    and [notes] (so neither [_id] nor a time stamp leaves the store), shows
    those three as the last document returned by the store has them, and
    is the default state, neutral with arousal 5, when the store returned
    nothing. *)
Theorem get_latest_emotion_keys (docs : list document) (k : string) :
  (in_keys EMOTION_KEYS k = false ->
   doc_get k (get_latest_emotion docs) = None)
  /\ (docs <> [] -> in_keys EMOTION_KEYS k = true ->
      doc_get k (get_latest_emotion docs) = doc_get k (last docs []))
  /\ (docs = [] -> get_latest_emotion docs = default_emotion).
Proof.
  split; [|split].
  - intros Hk. destruct docs as [|d docs].
    + change (get_latest_emotion [])
        with (filter (fun kv => in_keys EMOTION_KEYS (fst kv)) default_emotion).
      now rewrite doc_get_filter, Hk.
    + unfold get_latest_emotion. now rewrite doc_get_filter, Hk.
  - intros Hne Hk. destruct docs as [|d docs]; [now elim Hne|].
    unfold get_latest_emotion. now rewrite doc_get_filter, Hk.
  - now intros ->.
Qed.

Lemma get_latest_emotion_keys_witness :
  doc_get "_id"
    (get_latest_emotion
       [[("_id"%string, FObjectId "65f0"); ("mood"%string, FAny (AStr "calm"));
         ("arousal"%string, FAny (AInt 3)); ("notes"%string, FNull);
         ("created_at"%string, FDatetime 17)]]) = None
  /\ doc_get "mood"
       (get_latest_emotion
          [[("_id"%string, FObjectId "65f0");
            ("mood"%string, FAny (AStr "calm"));
            ("arousal"%string, FAny (AInt 3)); ("notes"%string, FNull);
            ("created_at"%string, FDatetime 17)]])
     = Some (FAny (AStr "calm")).
Proof.
  split.
  - apply (proj1 (get_latest_emotion_keys _ "_id")). reflexivity.
  - rewrite (proj1 (proj2 (get_latest_emotion_keys _ "mood")));
      [reflexivity | discriminate | reflexivity].
Defined.

Lemma doc_get_set_same (k : string) (v : Field) (d : document) :
  doc_get k (doc_set k v d) = Some v.
Proof.
  induction d as [|[k' v'] d IH]; simpl; [now rewrite String.eqb_refl|].
  destruct (String.eqb k' k) eqn:E; simpl; now rewrite E.
Qed.

Lemma doc_get_set_other (k k0 : string) (v : Field) (d : document) :
  k0 <> k -> doc_get k0 (doc_set k v d) = doc_get k0 d.
Proof.
  intros Hne. induction d as [|[k' v'] d IH]; simpl.
  - apply String.eqb_neq in Hne. now rewrite String.eqb_sym, Hne.
  - destruct (String.eqb k' k) eqn:E; simpl.
    + apply String.eqb_eq in E. subst k'.
      apply String.eqb_neq in Hne. now rewrite String.eqb_sym, Hne.
    + now rewrite IH.
Qed.

(** X22: the list of interactions has one entry for each document the store
    returned, in the same order; each entry has its [_id] as a string, the
    string of the stored [_id] (of [None] when there is none), and every
    other key as stored. *)
Theorem list_interactions_entries (str : Field -> string)
    (docs : list document) :
  Forall2 (fun d e =>
             doc_get "_id" e
             = Some (FAny (AStr (str (match doc_get "_id" d with
                                      | Some v => v
                                      | None => FNull
                                      end))))
             /\ forall k, k <> "_id"%string -> doc_get k e = doc_get k d)
    docs (list_interactions str docs).
Proof.
  induction docs as [|d docs IH]; simpl; constructor; [|exact IH].
  split; [apply doc_get_set_same|].
  intros k Hk. now apply doc_get_set_other.
Qed.
